(** * AnimateHeight: a shallow embedding of [animate-height.ts]

    The component is a closure: [setup] declares a handful of mutable
    variables, and the lifecycle hooks ([onMounted], [onUpdated],
    [onBeforeUnmount]) and the callbacks handed to [setTimeout] and
    [requestAnimationFrame] read and write them.  The embedding threads
    that closure, together with the part of the browser the component
    talks to (clock, timer table, frame table, emitted events, the content
    element), through pure functions on a record [World].

    Numbers are integers ([Z]): the heights the component handles are pixel
    counts and [offsetHeight] is integral.  [NaN] appears only as the
    result of converting a string that is not a number, where it is
    [None]; the infinities are outside the model. *)

From stdpp Require Import base option strings list gmap pretty.
From Stdlib Require Import ZArith Lia Ascii String.

Local Open Scope string_scope.
Local Open Scope Z_scope.

(** ** JavaScript values *)

(** [string | number]: the type of the [collapsedHeight] prop and of
    [Height] (['auto' | number | `${number}%`]). *)
Inductive JsValue : Type :=
| JNum (n : Z)
| JStr (s : string).

#[global] Instance JsValue_eq_dec : EqDecision JsValue.
Proof. solve_decision. Defined.

(** [typeof value]. *)
Definition typeof (v : JsValue) : string :=
  match v with
  | JNum _ => "number"
  | JStr _ => "string"
  end.

(** Template-literal interpolation [`${value}`]. *)
Definition show (v : JsValue) : string :=
  match v with
  | JNum n => pretty n
  | JStr s => s
  end.

(** [a === b] on values of type [string | number]. *)
Definition strict_eq (a b : JsValue) : bool := bool_decide (a = b).

Notation "a === b" := (strict_eq a b) (at level 68, no associativity).
Notation "a !== b" := (negb (strict_eq a b)) (at level 68, no associativity).

Abbreviation Height := JsValue.
Definition auto : Height := JStr "auto".

(** ** utils/validation.js *)

Module Validation.

Definition digit (c : ascii) : option Z :=
  let n := Z.of_N (Ascii.N_of_ascii c) in
  if (48 <=? n) && (n <=? 57) then Some (n - 48) else None.

Fixpoint digits (acc : Z) (cs : list ascii) : option Z :=
  match cs with
  | [] => Some acc
  | c :: rest =>
      match digit c with
      | Some d => digits (10 * acc + d) rest
      | None => None
      end
  end.

(** Decimal literals, optionally signed; [None] stands for [NaN]. *)
Definition parseNumber (s : string) : option Z :=
  match list_ascii_of_string s with
  | [] => None
  | "-"%char :: (_ :: _) as rest => Z.opp <$> digits 0 rest
  | "+"%char :: (_ :: _) as rest => digits 0 rest
  | cs => digits 0 cs
  end.

(** [Number(value)], with [None] for [NaN]. *)
Definition toNumber (v : JsValue) : option Z :=
  match v with
  | JNum n => Some n
  | JStr s => parseNumber s
  end.

(** Modelled from the spec: [isNumber] of utils/validation.js, which is
    imported by the component but is not part of the source tree.  A
    value is numeric when it is a number or a string that reads as one. *)
Definition isNumber (v : JsValue) : bool :=
  match toNumber v with
  | Some _ => true
  | None => false
  end.

(** Splits a string into everything before its last character, and that
    character. *)
Fixpoint unsnoc (cs : list ascii) : option (list ascii * ascii) :=
  match cs with
  | [] => None
  | c :: rest =>
      match unsnoc rest with
      | None => Some ([], c)
      | Some (init, l) => Some (c :: init, l)
      end
  end.

(** Modelled from the spec: [isPercentage] of utils/validation.js, which
    is imported by the component but is not part of the source tree.  A
    percentage is a string made of a number followed by ["%"]. *)
Definition isPercentage (v : JsValue) : bool :=
  match v with
  | JNum _ => false
  | JStr s =>
      match unsnoc (list_ascii_of_string s) with
      | Some (init, "%"%char) => isNumber (JStr (string_of_list_ascii init))
      | _ => false
      end
  end.

End Validation.
Import Validation.

(** [a < b] on values of type [string | number]: two strings compare by
    code units, anything else compares as numbers and is [false] as soon
    as one side converts to [NaN]. *)
Definition js_lt (a b : JsValue) : bool :=
  match a, b with
  | JStr s, JStr t => String.ltb s t
  | _, _ =>
      match toNumber a, toNumber b with
      | Some x, Some y => x <? y
      | _, _ => false
      end
  end.

Definition js_gt (a b : JsValue) : bool := js_lt b a.

(** ** Props *)

(** The ten semantic class names; [AnimationStateClasses] of types.ts is a
    partial record of them. *)
Record StateClassNames (A : Type) : Type := MkNames {
  animating : A;
  animatingUp : A;
  animatingDown : A;
  animatingToHeightZero : A;
  animatingToHeightAuto : A;
  animatingToHeightSpecific : A;
  static : A;
  staticHeightZero : A;
  staticHeightAuto : A;
  staticHeightSpecific : A;
}.
Arguments MkNames {A}.
Arguments animating {A}.
Arguments animatingUp {A}.
Arguments animatingDown {A}.
Arguments animatingToHeightZero {A}.
Arguments animatingToHeightAuto {A}.
Arguments animatingToHeightSpecific {A}.
Arguments static {A}.
Arguments staticHeightZero {A}.
Arguments staticHeightAuto {A}.
Arguments staticHeightSpecific {A}.

Definition ANIMATION_STATE_CLASSES : StateClassNames string := {|
  animating := "vah-animating";
  animatingUp := "vah-animating--up";
  animatingDown := "vah-animating--down";
  animatingToHeightZero := "vah-animating--to-height-zero";
  animatingToHeightAuto := "vah-animating--to-height-auto";
  animatingToHeightSpecific := "vah-animating--to-height-specific";
  static := "vah-static";
  staticHeightZero := "vah-static--height-zero";
  staticHeightAuto := "vah-static--height-auto";
  staticHeightSpecific := "vah-static--height-specific";
|}.

(** [{ ...ANIMATION_STATE_CLASSES, ...props.animationStateClasses }]: a key
    the caller supplies wins, a key the caller leaves out keeps its
    default. *)
Definition mergeNames (over : StateClassNames (option string))
  : StateClassNames string := {|
  animating := default (animating ANIMATION_STATE_CLASSES) (animating over);
  animatingUp :=
    default (animatingUp ANIMATION_STATE_CLASSES) (animatingUp over);
  animatingDown :=
    default (animatingDown ANIMATION_STATE_CLASSES) (animatingDown over);
  animatingToHeightZero :=
    default (animatingToHeightZero ANIMATION_STATE_CLASSES)
            (animatingToHeightZero over);
  animatingToHeightAuto :=
    default (animatingToHeightAuto ANIMATION_STATE_CLASSES)
            (animatingToHeightAuto over);
  animatingToHeightSpecific :=
    default (animatingToHeightSpecific ANIMATION_STATE_CLASSES)
            (animatingToHeightSpecific over);
  static := default (static ANIMATION_STATE_CLASSES) (static over);
  staticHeightZero :=
    default (staticHeightZero ANIMATION_STATE_CLASSES) (staticHeightZero over);
  staticHeightAuto :=
    default (staticHeightAuto ANIMATION_STATE_CLASSES) (staticHeightAuto over);
  staticHeightSpecific :=
    default (staticHeightSpecific ANIMATION_STATE_CLASSES)
            (staticHeightSpecific over);
|}.

(** The prop default [() => ANIMATION_STATE_CLASSES]. *)
Definition defaultNames : StateClassNames (option string) :=
  MkNames (Some "vah-animating") (Some "vah-animating--up")
          (Some "vah-animating--down") (Some "vah-animating--to-height-zero")
          (Some "vah-animating--to-height-auto")
          (Some "vah-animating--to-height-specific") (Some "vah-static")
          (Some "vah-static--height-zero") (Some "vah-static--height-auto")
          (Some "vah-static--height-specific").

Record Props : Type := MkProps {
  p_ariaHidden : option bool;
  p_animateOpacity : bool;
  p_animationStateClasses : StateClassNames (option string);
  p_applyInlineTransitions : bool;
  p_contentClass : option string;
  p_delay : Z;
  p_duration : Z;
  p_easing : string;
  p_collapsedHeight : JsValue;
  p_id : option string;
  p_isExpanded : bool;
}.

(** The declared defaults, around the one required prop.  [ariaHidden] is
    declared [type: Boolean] without a default: the framework hands the
    component [false] when the caller leaves it out, so the [typeof] test
    of the render function never sees [undefined] then. *)
Definition defaultProps (collapsedHeight : JsValue) : Props := {|
  p_ariaHidden := Some false;
  p_animateOpacity := false;
  p_animationStateClasses := defaultNames;
  p_applyInlineTransitions := true;
  p_contentClass := None;
  p_delay := 0;
  p_duration := 250;
  p_easing := "ease";
  p_collapsedHeight := collapsedHeight;
  p_id := None;
  p_isExpanded := false;
|}.

Definition withExpanded (b : bool) (p : Props) : Props :=
  MkProps (p_ariaHidden p) (p_animateOpacity p) (p_animationStateClasses p)
          (p_applyInlineTransitions p) (p_contentClass p) (p_delay p)
          (p_duration p) (p_easing p) (p_collapsedHeight p) (p_id p) b.

Definition withCollapsedHeight (v : JsValue) (p : Props) : Props :=
  MkProps (p_ariaHidden p) (p_animateOpacity p) (p_animationStateClasses p)
          (p_applyInlineTransitions p) (p_contentClass p) (p_delay p)
          (p_duration p) (p_easing p) v (p_id p) (p_isExpanded p).

(** The double-quote character, as a string. *)
Definition dquote : string := String (ascii_of_nat 34) EmptyString.

(** [collapsedHeight.validator]: the verdict, and what it writes with
    [console.error]. *)
Definition validator (value : JsValue) : bool * list string :=
  if match value with JNum n => 0 <=? n | JStr _ => false end
     || isPercentage value
     || (value === auto)
  then (true, [])
  else (false,
        ["value " +:+ dquote +:+ show value +:+ dquote +:+ " of type "
         +:+ dquote +:+ typeof value +:+ dquote
         +:+ " is invalid type for `height` in `AnimateHeight`."
         +:+ " It needs to be a positive number, string "
         +:+ dquote +:+ "auto" +:+ dquote
         +:+ " or percentage string (e.g. " +:+ dquote +:+ "15%" +:+ dquote
         +:+ ")."]).

(** ** The reactive state and the scheduled callbacks *)

(** [Record<string, boolean>]: an object literal with computed keys, where
    a key written twice keeps its last value. *)
Abbreviation ClassMap := (gmap string bool).

(** [type State]. *)
Record State : Type := MkState {
  s_animationStateClasses : ClassMap;
  s_height : Height;
  s_overflow : option string;          (* [string | null] *)
  s_shouldUseTransitions : bool;
}.

(** [timeoutState]: a partial [State] whose [overflow] is always present.
    [height] is assigned on each of the three paths of [onUpdated] before
    the object is read, so it is a plain field here. *)
Record TimeoutState : Type := MkTimeoutState {
  ts_overflow : option string;
  ts_height : Height;
  ts_animationStateClasses : option ClassMap;
  ts_shouldUseTransitions : option bool;
}.

(** [{ ...state.value, ...timeoutState }]. *)
Definition spread (s : State) (ts : TimeoutState) : State := {|
  s_animationStateClasses :=
    default (s_animationStateClasses s) (ts_animationStateClasses ts);
  s_height := ts_height ts;
  s_overflow := ts_overflow ts;
  s_shouldUseTransitions :=
    default (s_shouldUseTransitions s) (ts_shouldUseTransitions ts);
|}.

(** The three arrow functions [onUpdated] hands to the browser, each with
    the variables it captured.  [timeoutState] is not written again once
    the first two exist, and the third is the only one that holds its
    object, so a captured copy stands for the shared object. *)
Inductive Callback : Type :=
| StartFromAuto (timeoutState : TimeoutState)
| EndFromAuto (timeoutState : TimeoutState)
              (timeoutAnimationStateClasses : ClassMap)
| EndPlain (timeoutState : TimeoutState)
           (timeoutAnimationStateClasses : ClassMap) (newHeight : Height).

(** The payloads of [emit]. *)
Inductive Emitted : Type :=
| animationStart (newHeight : Height)
| animationEnd (newHeight : Height).

(** A variable that holds a timer handle: [undefined] until first
    assigned, [null] after unmount. *)
Inductive TimerRef : Type :=
| Undefined
| Null
| Handle (id : nat).

(** The inner [div]: its inline [display] and [overflow], and the height
    its content would take. *)
Record Element : Type := MkElement {
  display : string;
  styleOverflow : string;
  naturalHeight : Z;
}.

(** [offsetHeight]: nothing for an element that is not displayed. *)
Definition offsetHeight (el : Element) : Z :=
  if bool_decide (display el = "none") then 0 else Z.max 0 (naturalHeight el).

(** ** The closure of [setup] and the browser around it *)

Record Closure : Type := MkClosure {
  contentElement : option Element;
  animationFrameIds : list nat;
  collapsedHeight : Height;
  height : Height;
  overflow : string;
  animationStateClasses : StateClassNames string;
  prefersReducedMotion : bool;
  state : State;
  prevState : State;
  timeoutId : TimerRef;
  animationClassesTimeoutId : TimerRef;
  prevHeightProp : Height;
  prevIsExpanded : bool;
}.

Record Browser : Type := MkBrowser {
  now : Z;
  nextTimer : nat;
  timers : list (nat * Z * Callback);   (* handle, due time, callback *)
  nextFrame : nat;
  frames : list (nat * Callback);
  emitted : list Emitted;
}.

Record World : Type := MkWorld {
  closure : Closure;
  browser : Browser;
}.

(** Assignments to the variables of the closure and to the tables of the
    browser. *)

Definition setContentElement (el : option Element) (c : Closure) : Closure :=
  MkClosure el (animationFrameIds c) (collapsedHeight c) (height c)
            (overflow c) (animationStateClasses c) (prefersReducedMotion c)
            (state c) (prevState c) (timeoutId c)
            (animationClassesTimeoutId c) (prevHeightProp c)
            (prevIsExpanded c).

Definition setAnimationFrameIds (ids : list nat) (c : Closure) : Closure :=
  MkClosure (contentElement c) ids (collapsedHeight c) (height c)
            (overflow c) (animationStateClasses c) (prefersReducedMotion c)
            (state c) (prevState c) (timeoutId c)
            (animationClassesTimeoutId c) (prevHeightProp c)
            (prevIsExpanded c).

Definition setStates (st prev : State) (c : Closure) : Closure :=
  MkClosure (contentElement c) (animationFrameIds c) (collapsedHeight c)
            (height c) (overflow c) (animationStateClasses c)
            (prefersReducedMotion c) st prev (timeoutId c)
            (animationClassesTimeoutId c) (prevHeightProp c)
            (prevIsExpanded c).

Definition setTimeoutId (r : TimerRef) (c : Closure) : Closure :=
  MkClosure (contentElement c) (animationFrameIds c) (collapsedHeight c)
            (height c) (overflow c) (animationStateClasses c)
            (prefersReducedMotion c) (state c) (prevState c) r
            (animationClassesTimeoutId c) (prevHeightProp c)
            (prevIsExpanded c).

Definition setAnimationClassesTimeoutId (r : TimerRef) (c : Closure)
  : Closure :=
  MkClosure (contentElement c) (animationFrameIds c) (collapsedHeight c)
            (height c) (overflow c) (animationStateClasses c)
            (prefersReducedMotion c) (state c) (prevState c) (timeoutId c)
            r (prevHeightProp c) (prevIsExpanded c).

Definition setPrevHeightProp (h : Height) (c : Closure) : Closure :=
  MkClosure (contentElement c) (animationFrameIds c) (collapsedHeight c)
            (height c) (overflow c) (animationStateClasses c)
            (prefersReducedMotion c) (state c) (prevState c) (timeoutId c)
            (animationClassesTimeoutId c) h (prevIsExpanded c).

Definition setTimers (ts : list (nat * Z * Callback)) (b : Browser)
  : Browser :=
  MkBrowser (now b) (nextTimer b) ts (nextFrame b) (frames b) (emitted b).

Definition setFrames (fs : list (nat * Callback)) (b : Browser) : Browser :=
  MkBrowser (now b) (nextTimer b) (timers b) (nextFrame b) fs (emitted b).

Definition onClosure (f : Closure → Closure) (w : World) : World :=
  MkWorld (f (closure w)) (browser w).

Definition onBrowser (f : Browser → Browser) (w : World) : World :=
  MkWorld (closure w) (f (browser w)).

(** ** Browser primitives *)

(** [setTimeout(callback, ms)]: registers the callback and returns its
    handle. *)
Definition setTimeout (cb : Callback) (ms : Z) (b : Browser) : nat * Browser :=
  (nextTimer b,
   MkBrowser (now b) (S (nextTimer b))
             (timers b ++ [(nextTimer b, now b + Z.max 0 ms, cb)])
             (nextFrame b) (frames b) (emitted b)).

(** [clearTimeout(ref)]: nothing happens for [undefined] and [null]. *)
Definition clearTimeout (r : TimerRef) (b : Browser) : Browser :=
  match r with
  | Handle id => setTimers (filter (λ t, t.1.1 ≠ id) (timers b)) b
  | _ => b
  end.

(** [if (timeoutId !== null) { clearTimeout(timeoutId); }]. *)
Definition clearTimeoutUnlessNull (r : TimerRef) (b : Browser) : Browser :=
  match r with
  | Null => b
  | _ => clearTimeout r b
  end.

(** ** utils/animation.js *)

(** Modelled from the spec: [startAnimationHelper] of utils/animation.js,
    which is imported by the component but is not part of the source tree.
    It defers the callback to the next animation frame and returns the
    handles to cancel it with. *)
Definition startAnimationHelper (cb : Callback) (b : Browser)
  : list nat * Browser :=
  ([nextFrame b],
   MkBrowser (now b) (nextTimer b) (timers b) (S (nextFrame b))
             (frames b ++ [(nextFrame b, cb)]) (emitted b)).

(** Modelled from the spec: [cancelAnimationFrames] of utils/animation.js,
    which is imported by the component but is not part of the source tree.
    It cancels every frame callback whose handle is in the list. *)
Definition cancelAnimationFrames (ids : list nat) (b : Browser) : Browser :=
  setFrames (filter (λ f, f.1 ∉ ids) (frames b)) b.

(** [emit(...)]. *)
Definition emit (e : Emitted) (b : Browser) : Browser :=
  MkBrowser (now b) (nextTimer b) (timers b) (nextFrame b) (frames b)
            (emitted b ++ [e]).

(** ** [setup] *)

(** How a [let] variable behaves when a hoisted function writes it before
    its declaration has run: as the language defines it the write throws a
    [ReferenceError]; compiled down to [var] the write goes through and the
    initialiser then replaces it.  The build target is not part of the
    source tree, so both are modelled. *)
Inductive LetSemantics : Type :=
| BlockScoped
| LoweredToVar.

(** A [let] variable: [None] until its declaration has been evaluated. *)
Abbreviation Binding := (option string).

(** An assignment to the variable; [None] is the [ReferenceError]. *)
Definition assign (sem : LetSemantics) (b : Binding) (v : string)
  : option Binding :=
  match sem, b with
  | BlockScoped, None => None
  | _, _ => Some (Some v)
  end.

(** [parseHeight], with the variable [overflow] it writes threaded
    through. *)
Definition parseHeight (sem : LetSemantics) (value : JsValue)
    (overflow : Binding) : option (Height * Binding) :=
  match toNumber value with
  | Some n =>
      (* [isNumber(value)] *)
      overflow ← assign sem overflow "hidden";
      Some (JNum (Z.max 0 n), overflow)
  | None =>
      if isPercentage value then
        overflow ← assign sem overflow "hidden";
        Some (if value === JStr "0%" then JNum 0 else value, overflow)
      else Some (auto, overflow)
  end.

(** An object literal with computed keys, written in order. *)
Definition objectLiteral (entries : list (string * bool)) : ClassMap :=
  foldl (λ m e, <[e.1 := e.2]> m) ∅ entries.

Definition getStaticStateClasses
    (animationStateClasses : StateClassNames string) (height : Height)
  : ClassMap :=
  objectLiteral [
    (static animationStateClasses, true);
    (staticHeightZero animationStateClasses, height === JNum 0);
    (staticHeightSpecific animationStateClasses,
       match height with JNum n => 0 <? n | JStr _ => false end);
    (staticHeightAuto animationStateClasses, height === auto)
  ].

(** What [typeof window] and [window.matchMedia] show at [setup]. *)
Inductive Window : Type :=
| NoWindow
| NoMatchMedia
| MatchMedia (matches : bool).

(** [setup], up to the registration of the hooks.  [None] is an exception
    thrown while it runs. *)
Definition setup (sem : LetSemantics) (window : Window) (props : Props)
  : option Closure :=
  (* [parseHeight] runs before [let overflow = 'visible'] does *)
  parsed ← parseHeight sem (p_collapsedHeight props) None;
  let collapsedHeight := parsed.1 in
  let height := collapsedHeight in
  let overflow := "visible" in
  let animationStateClasses := mergeNames (p_animationStateClasses props) in
  let animationStateStaticClasses :=
    getStaticStateClasses animationStateClasses height in
  let prefersReducedMotion :=
    match window with
    | MatchMedia matches => matches
    | _ => false
    end in
  let state :=
    MkState animationStateStaticClasses height (Some overflow) false in
  Some {|
    contentElement := None;
    animationFrameIds := [];
    collapsedHeight := collapsedHeight;
    height := height;
    overflow := overflow;
    animationStateClasses := animationStateClasses;
    prefersReducedMotion := prefersReducedMotion;
    state := state;
    prevState := state;
    timeoutId := Undefined;
    animationClassesTimeoutId := Undefined;
    prevHeightProp := height;
    prevIsExpanded := p_isExpanded props;
  |}.

(** ** Functions of the closure *)

Definition setDisplay (d : string) (c : Closure) : Closure :=
  setContentElement
    ((λ el, MkElement d (styleOverflow el) (naturalHeight el))
       <$> contentElement c) c.

Definition showContent (height : Height) (c : Closure) : Closure :=
  if height === collapsedHeight c then setDisplay EmptyString c else c.

Definition hideContent (newHeight : Height) (c : Closure) : Closure :=
  if newHeight === JNum 0 then setDisplay "none" c else c.

Definition getTimings (props : Props) (c : Closure) : Z * Z :=
  if prefersReducedMotion c then (0, 0)
  else (p_delay props, p_duration props).

Definition updateState (newState : State) (c : Closure) : Closure :=
  setStates newState (state c) c.

(** ** Hooks *)

(** [onMounted]. *)
Definition onMounted (w : World) : World :=
  match contentElement (closure w) with
  | Some _ => onClosure (hideContent (collapsedHeight (closure w))) w
  | None => w
  end.

(** [onUpdated]. *)
Definition onUpdated (props : Props) (w : World) : World :=
  let c := closure w in
  let b := browser w in
  let delay := p_delay props in
  let duration := p_duration props in
  let isExpanded := p_isExpanded props in
  match contentElement c with
  | None => w
  | Some _ =>
  if bool_decide (prevIsExpanded c = isExpanded) then w else
  let prevHeight := prevHeightProp c in
  let c := setPrevHeightProp (height c) c in
  let c := showContent (s_height (prevState c)) c in
  (* Cache content height *)
  let contentHeight :=
    JNum (from_option offsetHeight 0 (contentElement c)) in
  let c :=
    setContentElement
      ((λ el, MkElement (display el) EmptyString (naturalHeight el))
         <$> contentElement c) c in
  let totalDuration := duration + delay in
  let isCurrentHeightAuto := prevHeight === auto in
  let '(newHeight, timeoutState) :=
    match toNumber (height c) with
    | Some n =>
        let newHeight := JNum (Z.max 0 n) in
        (newHeight, MkTimeoutState (Some "hidden") newHeight None None)
    | None =>
        if isPercentage (height c) then
          let newHeight :=
            if height c === JStr "0%" then JNum 0 else height c in
          (newHeight, MkTimeoutState (Some "hidden") newHeight None None)
        else
          (contentHeight, MkTimeoutState None auto None None)
    end in
  let '(newHeight, timeoutState) :=
    if isCurrentHeightAuto then
      (contentHeight,
       MkTimeoutState (ts_overflow timeoutState) newHeight
                      (ts_animationStateClasses timeoutState)
                      (ts_shouldUseTransitions timeoutState))
    else (newHeight, timeoutState) in
  let names := animationStateClasses c in
  let updatedAnimationStateClasses :=
    objectLiteral [
      (animating names, true);
      (animatingUp names,
         (prevHeight === auto) || js_lt (height c) prevHeight);
      (animatingDown names,
         (height c === auto) || js_gt (height c) prevHeight);
      (animatingToHeightZero names, ts_height timeoutState === JNum 0);
      (animatingToHeightAuto names, ts_height timeoutState === auto);
      (animatingToHeightSpecific names, js_gt (ts_height timeoutState) (JNum 0))
    ] in
  let timeoutAnimationStateClasses :=
    getStaticStateClasses names (ts_height timeoutState) in
  let c :=
    updateState
      (MkState updatedAnimationStateClasses newHeight (Some "hidden")
               (negb isCurrentHeightAuto)) c in
  (* Clear timeouts *)
  let b := clearTimeoutUnlessNull (timeoutId c) b in
  let b := clearTimeout (animationClassesTimeoutId c) b in
  if isCurrentHeightAuto then
    let timeoutState :=
      MkTimeoutState (ts_overflow timeoutState) (ts_height timeoutState)
                     (ts_animationStateClasses timeoutState) (Some true) in
    let b := cancelAnimationFrames (animationFrameIds c) b in
    let '(ids, b) := startAnimationHelper (StartFromAuto timeoutState) b in
    let c := setAnimationFrameIds ids c in
    let '(id, b) :=
      setTimeout (EndFromAuto timeoutState timeoutAnimationStateClasses)
                 totalDuration b in
    let c := setAnimationClassesTimeoutId (Handle id) c in
    MkWorld c b
  else
    let b := emit (animationStart newHeight) b in
    let '(id, b) :=
      setTimeout (EndPlain timeoutState timeoutAnimationStateClasses newHeight)
                 totalDuration b in
    let c := setTimeoutId (Handle id) c in
    MkWorld c b
  end.

(** What each scheduled callback does when the browser calls it. *)
Definition runCallback (cb : Callback) (w : World) : World :=
  let c := closure w in
  let b := browser w in
  match cb with
  | StartFromAuto timeoutState =>
      let c := updateState (spread (state c) timeoutState) c in
      MkWorld c (emit (animationStart (ts_height timeoutState)) b)
  | EndFromAuto timeoutState timeoutAnimationStateClasses =>
      let c :=
        updateState
          (MkState timeoutAnimationStateClasses (s_height (state c))
                   (s_overflow (state c)) false) c in
      let c := hideContent (ts_height timeoutState) c in
      MkWorld c (emit (animationEnd (ts_height timeoutState)) b)
  | EndPlain timeoutState timeoutAnimationStateClasses newHeight =>
      let timeoutState :=
        MkTimeoutState (ts_overflow timeoutState) (ts_height timeoutState)
                       (Some timeoutAnimationStateClasses) (Some false) in
      let c := updateState (spread (state c) timeoutState) c in
      let c := if height c !== auto then hideContent newHeight c else c in
      MkWorld c (emit (animationEnd newHeight) b)
  end.

(** [onBeforeUnmount]. *)
Definition onBeforeUnmount (w : World) : World :=
  let c := closure w in
  let b := browser w in
  let b := cancelAnimationFrames (animationFrameIds c) b in
  let b := clearTimeoutUnlessNull (timeoutId c) b in
  let b := clearTimeout (animationClassesTimeoutId c) b in
  MkWorld (setTimeoutId Null c) b.

(** ** The render function *)

(** The two entries of [attrs.style] the render function reads, and
    [attrs.class]. *)
Record Attrs : Type := MkAttrs {
  a_styleOverflow : option string;
  a_styleTransition : option string;
  a_class : option string;
}.

(** What the render function hands to [h] for the outer and the inner
    [div].  The first three fields are what [omit(props, PROPS_TO_OMIT)]
    (of just-omit: a copy of the props without the listed keys) leaves of
    the props and spreads onto the outer [div]: [collapsedHeight],
    [isExpanded] and [ariaHidden] are not in the list.  [id] is left too,
    and written again after the spread. *)
Record VNode : Type := MkVNode {
  v_forwardedAriaHidden : option bool;
  v_forwardedCollapsedHeight : JsValue;
  v_forwardedIsExpanded : bool;
  v_ariaHidden : bool;
  v_class : ClassMap * option string;
  v_id : option string;
  v_height : string;
  v_overflow : option string;
  v_transition : option string;
  v_WebkitTransition : option string;
  v_contentClass : option string;
  v_contentTransition : option string;
  v_contentWebkitTransition : option string;
  v_contentOpacity : option Z;
}.

Definition render (props : Props) (attrs : Attrs) (c : Closure) : VNode :=
  let '(delay, duration) := getTimings props c in
  let st := state c in
  let easing := p_easing props in
  let heightStyle :=
    match s_height st with
    | JNum n => pretty n +:+ "px"
    | JStr s => s
    end in
  let transition :=
    if s_shouldUseTransitions st && p_applyInlineTransitions props then
      let own :=
        "height " +:+ pretty duration +:+ "ms " +:+ easing +:+ " "
        +:+ pretty delay +:+ "ms" in
      Some match a_styleTransition attrs with
           | Some passed => passed +:+ ", " +:+ own
           | None => own
           end
    else a_styleTransition attrs in
  let webkitTransition :=
    if s_shouldUseTransitions st && p_applyInlineTransitions props
    then transition else None in
  let contentTransition :=
    if p_animateOpacity props then
      Some ("opacity " +:+ pretty duration +:+ "ms " +:+ easing +:+ " "
            +:+ pretty delay +:+ "ms")
    else None in
  let ariaHidden :=
    match p_ariaHidden props with
    | Some b => b
    | None => s_height st === JNum 0
    end in
  {|
    v_forwardedAriaHidden := p_ariaHidden props;
    v_forwardedCollapsedHeight := p_collapsedHeight props;
    v_forwardedIsExpanded := p_isExpanded props;
    v_ariaHidden := ariaHidden;
    v_class := (s_animationStateClasses st, a_class attrs);
    v_id := p_id props;
    v_height := heightStyle;
    v_overflow :=
      match s_overflow st with
      | Some o => Some o
      | None => a_styleOverflow attrs
      end;
    v_transition := transition;
    v_WebkitTransition := webkitTransition;
    v_contentClass := p_contentClass props;
    v_contentTransition := contentTransition;
    v_contentWebkitTransition := contentTransition;
    v_contentOpacity :=
      if p_animateOpacity props && (s_height st === JNum 0)
      then Some 0 else None;
  |}.

(** ** The life of one instance *)

(** What can happen to a mounted instance. *)
Inductive Event : Type :=
| Rendered (props : Props)    (* a re-render, then [onUpdated] *)
| Elapsed (ms : Z)            (* the clock moves on *)
| TimerDue (id : nat)         (* a timer that has come due is run *)
| AnimationFrame              (* the pending frame callbacks are run *)
| ContentResized (h : Z)      (* the slot content takes another height *)
| Unmounted.                  (* [onBeforeUnmount] *)

Definition fireTimer (id : nat) (w : World) : World :=
  let b := browser w in
  match
    List.find (λ t, bool_decide (t.1.1 = id) && (t.1.2 <=? now b)) (timers b)
  with
  | Some (_, _, cb) =>
      runCallback cb
        (onBrowser (setTimers (filter (λ t, t.1.1 ≠ id) (timers b))) w)
  | None => w
  end.

Definition fireFrames (w : World) : World :=
  foldl (λ w f, runCallback f.2 w) (onBrowser (setFrames []) w)
        (frames (browser w)).

Definition step (w : World) (e : Event) : World :=
  match e with
  | Rendered props => onUpdated props w
  | Elapsed ms =>
      onBrowser (λ b, MkBrowser (now b + Z.max 0 ms) (nextTimer b) (timers b)
                                (nextFrame b) (frames b) (emitted b)) w
  | TimerDue id => fireTimer id w
  | AnimationFrame => fireFrames w
  | ContentResized h =>
      onClosure (λ c, setContentElement
                        ((λ el, MkElement (display el) (styleOverflow el) h)
                           <$> contentElement c) c) w
  | Unmounted => onBeforeUnmount w
  end.

Definition run (w : World) (events : list Event) : World :=
  foldl step w events.

(** A browser in which nothing has been scheduled or emitted yet. *)
Definition freshBrowser : Browser := MkBrowser 0 1 [] 1 [] [].

(** [setup], the first render with the content [div] created and bound to
    the [contentElement] ref, and [onMounted]. *)
Definition mount (sem : LetSemantics) (window : Window) (props : Props)
    (natural : Z) : option World :=
  c ← setup sem window props;
  let el := MkElement EmptyString EmptyString natural in
  Some (onMounted (MkWorld (setContentElement (Some el) c) freshBrowser)).

(** The worlds an instance can be in. *)
Definition reachable (w : World) : Prop :=
  ∃ sem window props natural w0 events,
    mount sem window props natural = Some w0 ∧ run w0 events = w.

(** ** What holds in every reachable world *)

(** A height as [parseHeight] returns it: a number, a percentage string,
    or ['auto']. *)
Definition parsedHeight (h : Height) : Prop :=
  toNumber h = None → isPercentage h = false → h = auto.

(** A pending timer belongs to the cycle that produced the current state. *)
Definition timerOk (c : Closure) (cb : Callback) : Prop :=
  match cb with
  | StartFromAuto _ => False
  | EndFromAuto ts cls =>
      cls = getStaticStateClasses (animationStateClasses c) (ts_height ts)
      ∧ s_height (state c) = ts_height ts
      ∧ height c = auto
  | EndPlain ts cls newHeight =>
      cls = getStaticStateClasses (animationStateClasses c) newHeight
      ∧ ts_height ts = newHeight
      ∧ height c ≠ auto
  end.

(** A pending frame callback belongs to the cycle that produced the
    current state. *)
Definition frameOk (c : Closure) (cb : Callback) : Prop :=
  match cb with
  | StartFromAuto ts => ts_height ts = s_height (state c)
  | _ => False
  end.

Record Inv (w : World) : Prop := MkInv {
  inv_element : is_Some (contentElement (closure w));
  inv_prevHeight : prevHeightProp (closure w) = height (closure w);
  inv_parsed : parsedHeight (height (closure w));
  inv_timer_handles :
    ∀ t, t ∈ timers (browser w) →
         timeoutId (closure w) = Handle t.1.1
         ∨ animationClassesTimeoutId (closure w) = Handle t.1.1;
  inv_frame_handles :
    ∀ f, f ∈ frames (browser w) → f.1 ∈ animationFrameIds (closure w);
  inv_timers_one : (List.length (timers (browser w)) ≤ 1)%nat;
  inv_frames_one : (List.length (frames (browser w)) ≤ 1)%nat;
  inv_timers_fresh :
    ∀ t, t ∈ timers (browser w) → (t.1.1 < nextTimer (browser w))%nat;
  inv_frames_fresh :
    ∀ f, f ∈ frames (browser w) → (f.1 < nextFrame (browser w))%nat;
  inv_plain_frames :
    height (closure w) ≠ auto → frames (browser w) = [];
  inv_timers_ok :
    ∀ t, t ∈ timers (browser w) → timerOk (closure w) t.2;
  inv_frames_ok :
    ∀ f, f ∈ frames (browser w) → frameOk (closure w) f.2;
}.

(** Events the browser raises on its own. *)
Definition browserEvent (e : Event) : bool :=
  match e with
  | Elapsed _ | TimerDue _ | AnimationFrame => true
  | _ => false
  end.

(** The events of a cycle that is left alone: the update, the next frame,
    the wait, the completion timer.  This is a schedule of the hooks on
    their own; where the framework re-renders after a write to the state,
    the run has further [Rendered] events in between. *)
Definition wholeCycle (w : World) (props : Props) : list Event :=
  [Rendered props; AnimationFrame;
   Elapsed (p_duration props + p_delay props);
   TimerDue (nextTimer (browser w))].


(** What a test observes of a world. *)
Definition emittedBy (w : World) : list Emitted := emitted (browser w).
Definition classesOf (w : World) : ClassMap :=
  s_animationStateClasses (state (closure w)).
Definition displayOf (w : World) : option string :=
  display <$> contentElement (closure w).

(** Props used in the examples: the defaults around a collapsed height,
    before and after [isExpanded] is switched on. *)
Definition collapsed (h : JsValue) : Props := defaultProps h.
Definition expanded (h : JsValue) : Props := withExpanded true (defaultProps h).
Definition noAttrs : Attrs := MkAttrs None None None.

(** A height a cycle can animate to: a number that is not negative, or a
    percentage string. *)
Definition settled (h : Height) : Prop :=
  match h with
  | JNum n => 0 ≤ n
  | JStr _ => isPercentage h = true
  end.

(** The payload of an emitted event. *)
Definition payload (e : Emitted) : Height :=
  match e with
  | animationStart newHeight => newHeight
  | animationEnd newHeight => newHeight
  end.

(** The height a scheduled callback will emit. *)
Definition carried (cb : Callback) : Height :=
  match cb with
  | StartFromAuto ts => ts_height ts
  | EndFromAuto ts _ => ts_height ts
  | EndPlain _ _ newHeight => newHeight
  end.

(** The closure of [onUpdated] once [showContent] has run, and the
    [contentHeight] it measures then. *)
Definition shown (c : Closure) : Closure :=
  showContent (s_height (prevState c)) (setPrevHeightProp (height c) c).
Definition contentHeight (c : Closure) : Z :=
  from_option offsetHeight 0 (contentElement (shown c)).

(** The height a cycle animates to. *)
Definition target (c : Closure) : Height :=
  if height c === auto then JNum (contentHeight c) else height c.

(** The variables of the closure that only [setup] writes. *)
Definition sameSetup (c c' : Closure) : Prop :=
  collapsedHeight c' = collapsedHeight c
  ∧ height c' = height c
  ∧ overflow c' = overflow c
  ∧ animationStateClasses c' = animationStateClasses c
  ∧ prefersReducedMotion c' = prefersReducedMotion c
  ∧ prevIsExpanded c' = prevIsExpanded c.

(** The state [setup] creates for a height of ['auto']. *)
Definition pristine (c : Closure) : State :=
  MkState (getStaticStateClasses (animationStateClasses c) auto) auto
          (Some "visible") false.

(** Further facts of every reachable world: what the events and the
    pending callbacks carry, when the state height is still ['auto'], what
    a hidden content implies, and what the state holds when the collapsed
    height is not ['auto']. *)
Record Inv2 (w : World) : Prop := MkInv2 {
  inv2_heights : collapsedHeight (closure w) = height (closure w);
  inv2_emitted :
    ∀ e, e ∈ emitted (browser w) → settled (payload e);
  inv2_timers :
    ∀ t, t ∈ timers (browser w) → settled (carried t.2);
  inv2_frames :
    ∀ f, f ∈ frames (browser w) → settled (carried f.2);
  inv2_state :
    s_height (state (closure w)) = auto
    ∨ settled (s_height (state (closure w)));
  inv2_pristine :
    s_height (state (closure w)) = auto →
    state (closure w) = pristine (closure w)
    ∧ emitted (browser w) = []
    ∧ timers (browser w) = []
    ∧ frames (browser w) = [];
  inv2_hidden :
    collapsedHeight (closure w) = auto →
    display <$> contentElement (closure w) = Some "none" →
    s_height (state (closure w)) ≠ auto
    ∧ s_height (prevState (closure w)) ≠ auto;
  inv2_height :
    height (closure w) = auto
    ∨ (settled (height (closure w)) ∧ height (closure w) ≠ JStr "0%");
  inv2_plain :
    height (closure w) ≠ auto →
    s_height (state (closure w)) = height (closure w)
    ∧ s_height (prevState (closure w)) = height (closure w);
  inv2_plain_timers :
    ∀ t, t ∈ timers (browser w) → height (closure w) ≠ auto →
         carried t.2 = height (closure w);
  inv2_plain_emitted :
    ∀ e, e ∈ emitted (browser w) → height (closure w) ≠ auto →
         payload e = height (closure w);
  inv2_display :
    display <$> contentElement (closure w) = Some "none" →
    s_height (state (closure w)) = JNum 0;
}.

(** What a scheduled callback emits when it runs. *)
Definition emits (cb : Callback) : Emitted :=
  match cb with
  | StartFromAuto ts => animationStart (ts_height ts)
  | EndFromAuto ts _ => animationEnd (ts_height ts)
  | EndPlain _ _ newHeight => animationEnd newHeight
  end.

(** An event that leaves a running cycle alone: anything but a re-render
    that passes the guard of [onUpdated] (which starts the next cycle) and
    the unmount (which cancels this one). *)
Definition leavesCycleAlone (c : Closure) (e : Event) : Prop :=
  match e with
  | Rendered props => p_isExpanded props = prevIsExpanded c
  | Unmounted => False
  | _ => True
  end.

(** Where a cycle stands: what it has emitted so far, [rest], against the
    frame callback [f] and the completion timer [t] it may still have
    pending. *)
Definition cycleStands (f : nat * Callback) (t : nat * Z * Callback)
    (h : Height) (b : Browser) (rest : list Emitted) : Prop :=
  (frames b = [f] ∧ timers b = [t] ∧ rest = [])
  ∨ (frames b = [] ∧ timers b = [t] ∧ rest = [animationStart h])
  ∨ (frames b = [f] ∧ timers b = [] ∧ rest = [animationEnd h])
  ∨ (frames b = [] ∧ timers b = []
     ∧ (rest = [animationStart h; animationEnd h]
        ∨ rest = [animationEnd h; animationStart h])).




(** * Properties *)

Arguments objectLiteral : simpl never.
Arguments getStaticStateClasses : simpl never.
Arguments showContent : simpl never.
Arguments hideContent : simpl never.
Arguments clearTimeout : simpl never.
Arguments clearTimeoutUnlessNull : simpl never.
Arguments cancelAnimationFrames : simpl never.

(** [showContent] and [hideContent] touch the content element only. *)
Section ContentOnly.

Variables (h : Height) (c : Closure).

Ltac content_only :=
  unfold showContent, hideContent; case_match; reflexivity.

Lemma showContent_animationFrameIds :
  animationFrameIds (showContent h c) = animationFrameIds c.
Proof. content_only. Qed.
Lemma showContent_collapsedHeight :
  collapsedHeight (showContent h c) = collapsedHeight c.
Proof. content_only. Qed.
Lemma showContent_height : height (showContent h c) = height c.
Proof. content_only. Qed.
Lemma showContent_animationStateClasses :
  animationStateClasses (showContent h c) = animationStateClasses c.
Proof. content_only. Qed.
Lemma showContent_state : state (showContent h c) = state c.
Proof. content_only. Qed.
Lemma showContent_prevState : prevState (showContent h c) = prevState c.
Proof. content_only. Qed.
Lemma showContent_timeoutId : timeoutId (showContent h c) = timeoutId c.
Proof. content_only. Qed.
Lemma showContent_animationClassesTimeoutId :
  animationClassesTimeoutId (showContent h c) = animationClassesTimeoutId c.
Proof. content_only. Qed.
Lemma showContent_prevHeightProp :
  prevHeightProp (showContent h c) = prevHeightProp c.
Proof. content_only. Qed.
Lemma showContent_prevIsExpanded :
  prevIsExpanded (showContent h c) = prevIsExpanded c.
Proof. content_only. Qed.

Lemma hideContent_animationFrameIds :
  animationFrameIds (hideContent h c) = animationFrameIds c.
Proof. content_only. Qed.
Lemma hideContent_collapsedHeight :
  collapsedHeight (hideContent h c) = collapsedHeight c.
Proof. content_only. Qed.
Lemma hideContent_height : height (hideContent h c) = height c.
Proof. content_only. Qed.
Lemma hideContent_animationStateClasses :
  animationStateClasses (hideContent h c) = animationStateClasses c.
Proof. content_only. Qed.
Lemma hideContent_state : state (hideContent h c) = state c.
Proof. content_only. Qed.
Lemma hideContent_prevState : prevState (hideContent h c) = prevState c.
Proof. content_only. Qed.
Lemma hideContent_timeoutId : timeoutId (hideContent h c) = timeoutId c.
Proof. content_only. Qed.
Lemma hideContent_animationClassesTimeoutId :
  animationClassesTimeoutId (hideContent h c) = animationClassesTimeoutId c.
Proof. content_only. Qed.
Lemma hideContent_prevHeightProp :
  prevHeightProp (hideContent h c) = prevHeightProp c.
Proof. content_only. Qed.
Lemma hideContent_prevIsExpanded :
  prevIsExpanded (hideContent h c) = prevIsExpanded c.
Proof. content_only. Qed.

Lemma showContent_element :
  is_Some (contentElement c) → is_Some (contentElement (showContent h c)).
Proof.
  intros [el Hel]. unfold showContent. case_match; simpl; rewrite Hel; eauto.
Qed.

Lemma hideContent_element :
  is_Some (contentElement c) → is_Some (contentElement (hideContent h c)).
Proof.
  intros [el Hel]. unfold hideContent. case_match; simpl; rewrite Hel; eauto.
Qed.

End ContentOnly.

Create Rewrite HintDb closure.
#[local] Hint Rewrite
  showContent_animationFrameIds showContent_collapsedHeight
  showContent_height showContent_animationStateClasses showContent_state
  showContent_prevState showContent_timeoutId
  showContent_animationClassesTimeoutId showContent_prevHeightProp
  showContent_prevIsExpanded
  hideContent_animationFrameIds hideContent_collapsedHeight
  hideContent_height hideContent_animationStateClasses hideContent_state
  hideContent_prevState hideContent_timeoutId
  hideContent_animationClassesTimeoutId hideContent_prevHeightProp
  hideContent_prevIsExpanded : closure.

Section Invariant.

Lemma parseHeight_parsed sem v b h b' :
  parseHeight sem v b = Some (h, b') → parsedHeight h.
Proof.
  unfold parseHeight, parsedHeight.
  destruct (toNumber v) as [n|] eqn:Hn.
  - destruct (assign sem b "hidden"); simpl; [|done].
    intros [= <- <-]. done.
  - destruct (isPercentage v) eqn:Hp.
    + destruct (assign sem b "hidden"); simpl; [|done].
      intros [= <- <-]. destruct (v === JStr "0%"); [done|congruence].
    + intros [= <- <-]. done.
Qed.

Lemma mount_Inv sem window props natural w :
  mount sem window props natural = Some w → Inv w.
Proof.
  unfold mount, setup.
  destruct (parseHeight sem (p_collapsedHeight props) None)
    as [[h b']|] eqn:Hp; simpl; [|done].
  intros [= <-]. apply parseHeight_parsed in Hp.
  unfold onMounted, hideContent; simpl.
  destruct (h === JNum 0); split; simpl; try done; eauto;
    try (intros ? ?%elem_of_nil; done).
Qed.

(** Clearing both timer variables empties the timer table. *)
Lemma clear_both_timers (r1 r2 : TimerRef) (b : Browser) :
  (∀ t, t ∈ timers b → r1 = Handle t.1.1 ∨ r2 = Handle t.1.1) →
  clearTimeout r2 (clearTimeoutUnlessNull r1 b) = setTimers [] b.
Proof.
  intros H.
  assert (Hf : ∀ (l : list (nat * Z * Callback)) id,
           (∀ t, t ∈ l → t.1.1 = id) →
           filter (λ t, t.1.1 ≠ id) l = []).
  { induction l as [|t l IH]; intros id Hl; [done|].
    rewrite filter_cons. destruct (decide (t.1.1 ≠ id)) as [Hne|_].
    - exfalso. apply Hne, Hl. left.
    - apply IH. intros t' Ht'. apply Hl. by right. }
  assert (Hg : ∀ (l : list (nat * Z * Callback)) id1 id2,
           (∀ t, t ∈ l → t.1.1 = id1 ∨ t.1.1 = id2) →
           filter (λ t, t.1.1 ≠ id2) (filter (λ t, t.1.1 ≠ id1) l)
           = []).
  { intros l id1 id2 Hl. apply Hf. intros t Ht.
    apply list_elem_of_filter in Ht as [Hne Ht].
    destruct (Hl t Ht); [done|done]. }
  destruct b as [n nt ts nf fs em]; simpl in *.
  destruct r1 as [| |id1], r2 as [| |id2];
    unfold clearTimeoutUnlessNull, clearTimeout, setTimers;
    simpl; f_equal.
  all: try (destruct ts as [|t ts]; [done|];
            destruct (H t) as [?|?]; [left|done|done]).
  - apply Hf. intros t Ht. destruct (H t Ht) as [?|[= ->]]; done.
  - apply Hf. intros t Ht. destruct (H t Ht) as [?|[= ->]]; done.
  - apply Hf. intros t Ht. destruct (H t Ht) as [[= ->]|?]; done.
  - apply Hf. intros t Ht. destruct (H t Ht) as [[= ->]|?]; done.
  - apply Hg. intros t Ht.
    destruct (H t Ht) as [[= ->]|[= ->]]; [by left|by right].
Qed.

Lemma filter_frames_nil (ids : list nat) (fs : list (nat * Callback)) :
  (∀ f, f ∈ fs → f.1 ∈ ids) → filter (λ f, f.1 ∉ ids) fs = [].
Proof.
  intros H. induction fs as [|f l IH]; [done|].
  rewrite filter_cons. destruct (decide (f.1 ∉ ids)) as [Hn|_].
  - exfalso. apply Hn, H. left.
  - apply IH. intros f' Hf'. apply H. by right.
Qed.

Lemma cancel_all_frames (ids : list nat) (b : Browser) :
  (∀ f, f ∈ frames b → f.1 ∈ ids) →
  cancelAnimationFrames ids b = setFrames [] b.
Proof.
  intros H. unfold cancelAnimationFrames. f_equal.
  by apply filter_frames_nil.
Qed.

(** [onUpdated] does not read the [collapsedHeight] prop. *)
Lemma onUpdated_ignores_collapsedHeight v props w :
  onUpdated (withCollapsedHeight v props) w = onUpdated props w.
Proof. reflexivity. Qed.

(** The guard of [onUpdated]. *)
Lemma onUpdated_same w props :
  prevIsExpanded (closure w) = p_isExpanded props → onUpdated props w = w.
Proof.
  intros H. unfold onUpdated. destruct (contentElement (closure w)); [|done].
  by rewrite bool_decide_eq_true_2.
Qed.

(** A cycle that starts from ['auto']. *)
Lemma onUpdated_from_auto w props :
  Inv w →
  prevIsExpanded (closure w) ≠ p_isExpanded props →
  height (closure w) = auto →
  ∃ c' k,
    let b := browser w in
    let ts := MkTimeoutState None (JNum k) None (Some true) in
    let cls := getStaticStateClasses (animationStateClasses (closure w))
                                     (JNum k) in
    onUpdated props w
    = MkWorld
        (setAnimationClassesTimeoutId (Handle (nextTimer b))
           (setAnimationFrameIds [nextFrame b] c'))
        (MkBrowser (now b) (S (nextTimer b))
           [(nextTimer b,
             now b + Z.max 0 (p_duration props + p_delay props),
             EndFromAuto ts cls)]
           (S (nextFrame b)) [(nextFrame b, StartFromAuto ts)]
           (emitted b))
    ∧ s_height (state c') = JNum k
    ∧ s_shouldUseTransitions (state c') = false
    ∧ height c' = auto
    ∧ prevHeightProp c' = auto
    ∧ animationStateClasses c' = animationStateClasses (closure w)
    ∧ is_Some (contentElement c').
Proof.
  intros HI Hne Hauto. destruct w as [c b]. destruct HI; simpl in *.
  destruct inv_element0 as [el Hel].
  unfold onUpdated; simpl closure; simpl browser.
  rewrite Hel, bool_decide_eq_false_2 by done. cbv zeta.
  autorewrite with closure; simpl; autorewrite with closure; simpl.
  rewrite inv_prevHeight0, Hauto. simpl.
  rewrite clear_both_timers by done. simpl.
  rewrite filter_frames_nil by done. simpl.
  eexists _, _; (split; [reflexivity|]); simpl.
  autorewrite with closure; simpl.
  repeat split; try done.
  apply fmap_is_Some, showContent_element. simpl. by rewrite Hel.
Qed.

(** A cycle that starts from a number or a percentage. *)
Lemma onUpdated_plain w props :
  Inv w →
  prevIsExpanded (closure w) ≠ p_isExpanded props →
  height (closure w) ≠ auto →
  ∃ c' nh,
    let b := browser w in
    let ts := MkTimeoutState (Some "hidden") nh None None in
    let cls := getStaticStateClasses (animationStateClasses (closure w)) nh in
    onUpdated props w
    = MkWorld
        (setTimeoutId (Handle (nextTimer b)) c')
        (MkBrowser (now b) (S (nextTimer b))
           [(nextTimer b,
             now b + Z.max 0 (p_duration props + p_delay props),
             EndPlain ts cls nh)]
           (nextFrame b) [] (emitted b ++ [animationStart nh]))
    ∧ s_height (state c') = nh
    ∧ s_shouldUseTransitions (state c') = true
    ∧ height c' = height (closure w)
    ∧ prevHeightProp c' = height (closure w)
    ∧ animationStateClasses c' = animationStateClasses (closure w)
    ∧ is_Some (contentElement c').
Proof.
  intros HI Hne Hna. destruct w as [c b]. destruct HI; simpl in *.
  destruct inv_element0 as [el Hel].
  assert (Hf : height c === auto = false)
    by (by apply bool_decide_eq_false_2).
  unfold onUpdated; simpl closure; simpl browser.
  rewrite Hel, bool_decide_eq_false_2 by done. cbv zeta.
  autorewrite with closure; simpl; autorewrite with closure; simpl.
  rewrite inv_prevHeight0, Hf. simpl.
  rewrite clear_both_timers by done. simpl.
  rewrite (inv_plain_frames0 Hna).
  assert (Hel' : is_Some
            ((λ el0, MkElement (display el0) EmptyString (naturalHeight el0))
             <$> contentElement (showContent (s_height (prevState c))
                                   (setPrevHeightProp (height c) c)))).
  { apply fmap_is_Some, showContent_element. simpl. by rewrite Hel. }
  destruct (toNumber (height c)) as [n|] eqn:Hn; simpl.
  - eexists _, _; (split; [reflexivity|]); simpl.
    autorewrite with closure; simpl. repeat split; done.
  - destruct (isPercentage (height c)) eqn:Hp; simpl.
    + eexists _, _; (split; [reflexivity|]); simpl.
      autorewrite with closure; simpl. repeat split; done.
    + exfalso. by apply Hna, inv_parsed0.
Qed.

Lemma onUpdated_Inv w props : Inv w → Inv (onUpdated props w).
Proof.
  intros HI.
  destruct (decide (prevIsExpanded (closure w) = p_isExpanded props))
    as [He|Hne]; [by rewrite onUpdated_same|].
  destruct (decide (height (closure w) = auto)) as [Ha|Hna].
  - destruct (onUpdated_from_auto w props HI Hne Ha)
      as (c' & k & -> & Hh & Ht & Hc & Hp & Hn & Hel).
    destruct HI. split; simpl; try done.
    + congruence.
    + by rewrite Hc.
    + intros t ->%list_elem_of_singleton. by right.
    + intros f ->%list_elem_of_singleton. simpl. left.
    + intros t ->%list_elem_of_singleton. simpl. lia.
    + intros f ->%list_elem_of_singleton. simpl. lia.
    + intros t ->%list_elem_of_singleton. simpl. by rewrite Hn.
    + intros f ->%list_elem_of_singleton. simpl. by rewrite Hh.
  - destruct (onUpdated_plain w props HI Hne Hna)
      as (c' & nh & -> & Hh & Ht & Hc & Hp & Hn & Hel).
    destruct HI. split; simpl; try done.
    + congruence.
    + by rewrite Hc.
    + intros t ->%list_elem_of_singleton. by left.
    + intros f ?%elem_of_nil. done.
    + lia.
    + intros t ->%list_elem_of_singleton. simpl. lia.
    + intros f ?%elem_of_nil. done.
    + intros t ->%list_elem_of_singleton. simpl. by rewrite Hn, Hc.
    + intros f ?%elem_of_nil. done.
Qed.

Lemma frameOk_ext c c' cb :
  s_height (state c') = s_height (state c) → frameOk c cb → frameOk c' cb.
Proof. destruct cb; simpl; congruence. Qed.

Lemma timerOk_ext c c' cb :
  animationStateClasses c' = animationStateClasses c →
  s_height (state c') = s_height (state c) →
  height c' = height c →
  timerOk c cb → timerOk c' cb.
Proof. destruct cb; simpl; intros Hn Hs Hh; rewrite ?Hn, ?Hs, ?Hh; done. Qed.

Ltac inv_close :=
  first [ done | lia | by intros ? ?%elem_of_nil
        | by apply hideContent_element
        | by (intros f Hf; eapply frameOk_ext; [|eauto];
              autorewrite with closure) ].

Lemma fireTimer_Inv w id : Inv w → Inv (fireTimer id w).
Proof.
  intros HI. unfold fireTimer.
  destruct (List.find _ _) as [[[id' due] cb]|] eqn:Hfind; [|done].
  apply find_some in Hfind as [Hin [Hid _]%andb_prop].
  apply bool_decide_eq_true_1 in Hid. simpl in Hid. subst id'.
  destruct w as [c b]. destruct HI; simpl in *.
  assert (Hts : timers b = [(id, due, cb)]).
  { destruct (timers b) as [|t [|t' l]]; simpl in *; [done| |lia].
    by destruct Hin as [->|[]]. }
  pose proof (inv_timers_ok0 (id, due, cb)) as Hok.
  rewrite Hts in Hok. specialize (Hok ltac:(left)). simpl in Hok.
  rewrite Hts, filter_cons, decide_False by (simpl; tauto).
  rewrite filter_nil. unfold onBrowser, runCallback; simpl.
  destruct cb as [ts|ts cls|ts cls nh]; [done| |].
  - destruct Hok as (-> & Hh & Ha).
    split; simpl; autorewrite with closure; simpl; inv_close.
  - destruct Hok as (-> & Hh & Hna).
    pose proof (inv_plain_frames0 Hna) as Hfr.
    assert (Hf : (height c !== auto) = true).
    { unfold strict_eq. by rewrite bool_decide_eq_false_2. }
    rewrite Hf.
    split; simpl; autorewrite with closure; simpl; rewrite ?Hfr; simpl;
      inv_close.
Qed.

Lemma fireFrames_Inv w : Inv w → Inv (fireFrames w).
Proof.
  intros HI. unfold fireFrames.
  destruct w as [c b]. destruct HI; simpl in *.
  destruct (frames b) as [|[id cb] [|f' l]] eqn:Hfs; simpl in *; [| |lia].
  - split; simpl; inv_close.
  - pose proof (inv_frames_ok0 (id, cb) ltac:(left)) as Hok. simpl in Hok.
    destruct cb as [ts|ts cls|ts cls nh]; [|done|done]. simpl in Hok.
    unfold runCallback; simpl.
    split; simpl; try inv_close.
    intros t Ht. specialize (inv_timers_ok0 t Ht).
    destruct (t.2) as [|ts' cls'|]; simpl in *; [done| |done].
    destruct inv_timers_ok0 as (? & ? & ?). repeat split; congruence.
Qed.

Lemma onBeforeUnmount_Inv w : Inv w → Inv (onBeforeUnmount w).
Proof.
  intros HI. destruct w as [c b]. destruct HI; simpl in *.
  unfold onBeforeUnmount; simpl.
  rewrite clear_both_timers
    by (intros t; unfold cancelAnimationFrames; simpl; auto).
  rewrite cancel_all_frames by done.
  split; simpl; inv_close.
Qed.

Lemma step_Inv w e : Inv w → Inv (step w e).
Proof.
  intros HI. destruct e as [props|ms|id| |h|]; simpl.
  - by apply onUpdated_Inv.
  - destruct HI. by split.
  - by apply fireTimer_Inv.
  - by apply fireFrames_Inv.
  - destruct HI as [[el Hel] ? ? ? ? ? ? ? ? ? ? ?].
    split; simpl; try done. rewrite Hel. simpl. eauto.
  - by apply onBeforeUnmount_Inv.
Qed.

Lemma run_Inv w events : Inv w → Inv (run w events).
Proof.
  revert w. induction events as [|e events IH]; intros w HI; [done|].
  simpl. apply IH. by apply step_Inv.
Qed.

Lemma reachable_Inv w : reachable w → Inv w.
Proof.
  intros (sem & window & props & natural & w0 & events & Hm & <-).
  eapply run_Inv, mount_Inv, Hm.
Qed.

End Invariant.

(** ** Cycles *)

Section Cycles.

Variables (w : World) (props : Props).
Hypothesis Hreach : reachable w.
Hypothesis Hstarts : prevIsExpanded (closure w) ≠ p_isExpanded props.

Let total := p_duration props + p_delay props.

(** C5. Whenever [onUpdated] starts a cycle, nothing that was scheduled
    before it is pending afterwards, in the branch that starts from
    ['auto'] and in the other one: the one timer and the at most one
    frame callback that are pending are the ones this cycle scheduled.
    So in every reachable world at most one completion timer and at most
    one frame callback are pending. *)
Theorem one_sequence_in_flight :
  let w' := onUpdated props w in
  (∀ t, t ∈ timers (browser w) → t ∉ timers (browser w'))
  ∧ (∀ f, f ∈ frames (browser w) → f ∉ frames (browser w'))
  ∧ (∃ cb, timers (browser w')
           = [(nextTimer (browser w), now (browser w) + Z.max 0 total, cb)])
  ∧ (frames (browser w') = []
     ∨ ∃ cb, frames (browser w') = [(nextFrame (browser w), cb)])
  ∧ (List.length (timers (browser w)) ≤ 1)%nat
  ∧ (List.length (frames (browser w)) ≤ 1)%nat.
Proof.
  pose proof (reachable_Inv w Hreach) as HI. intros w'. subst w'.
  assert (Ht : ∀ t cb d, t ∈ timers (browser w) →
               t ∉ [(nextTimer (browser w), d, cb)]).
  { intros t cb d Hin ->%list_elem_of_singleton.
    apply (inv_timers_fresh w HI) in Hin. simpl in Hin. lia. }
  destruct (decide (height (closure w) = auto)) as [Ha|Hna].
  - destruct (onUpdated_from_auto w props HI Hstarts Ha)
      as (c' & k & -> & _). simpl.
    repeat split; [by auto| |by eauto|by eauto|apply HI..].
    intros f Hin ->%list_elem_of_singleton.
    apply (inv_frames_fresh w HI) in Hin. simpl in Hin. lia.
  - destruct (onUpdated_plain w props HI Hstarts Hna)
      as (c' & nh & -> & _). simpl.
    repeat split; [by auto| |by eauto|by eauto|apply HI..].
    by intros f _ ?%elem_of_nil.
Qed.

End Cycles.

(** ** Unmount *)

(** C9. [onBeforeUnmount] leaves no timer and no frame callback pending,
    so whatever the browser does afterwards (time passing, timers coming
    due, animation frames) runs no callback of the component: nothing more
    is emitted and the closure, state included, stays as it was. *)
Theorem unmount_cancels_everything w events :
  reachable w →
  forallb browserEvent events = true →
  let w' := onBeforeUnmount w in
  timers (browser w') = []
  ∧ frames (browser w') = []
  ∧ emitted (browser (run w' events)) = emitted (browser w)
  ∧ closure (run w' events) = closure w'.
Proof.
  intros Hreach Hev. apply reachable_Inv in Hreach as HI. intros w'.
  assert (Hw' : timers (browser w') = [] ∧ frames (browser w') = []
                ∧ emitted (browser w') = emitted (browser w)).
  { subst w'. destruct w as [c b]. unfold onBeforeUnmount; simpl.
    rewrite clear_both_timers
      by (intros t; unfold cancelAnimationFrames; simpl;
          apply (inv_timer_handles _ HI)).
    rewrite cancel_all_frames by apply (inv_frame_handles _ HI). done. }
  destruct Hw' as (Ht & Hf & He). split; [done|]. split; [done|].
  rewrite <- He. clear He HI Hreach.
  generalize dependent w'. intros w'. revert w'.
  induction events as [|e events IH]; intros w' Ht Hf; [done|].
  simpl in Hev. apply andb_prop in Hev as [He Hev]. simpl.
  assert (Hs : timers (browser (step w' e)) = []
               ∧ frames (browser (step w' e)) = []
               ∧ emitted (browser (step w' e)) = emitted (browser w')
               ∧ closure (step w' e) = closure w').
  { destruct e; try done; simpl.
    - unfold fireTimer. by rewrite Ht.
    - unfold fireFrames. by rewrite Hf. }
  destruct Hs as (Ht' & Hf' & He' & Hc').
  destruct (IH Hev (step w' e) Ht' Hf') as [-> ->]. done.
Qed.

(** ** Instances *)

(** C5 at an instance whose first cycle is still pending when the next one
    starts. *)
Lemma one_sequence_in_flight_witness :
  ∃ w0, mount BlockScoped NoWindow (collapsed auto) 120 = Some w0
    ∧ let w := run w0 [Rendered (expanded auto); Elapsed 100] in
      let w' := onUpdated (expanded auto) w in
      prevIsExpanded (closure w) ≠ true
      ∧ (∀ t, t ∈ timers (browser w) → t ∉ timers (browser w'))
      ∧ (∀ f, f ∈ frames (browser w) → f ∉ frames (browser w'))
      ∧ (∃ cb, timers (browser w')
               = [(nextTimer (browser w),
                   now (browser w)
                   + Z.max 0 (p_duration (expanded auto)
                              + p_delay (expanded auto)), cb)])
      ∧ (frames (browser w') = []
         ∨ ∃ cb, frames (browser w') = [(nextFrame (browser w), cb)])
      ∧ (List.length (timers (browser w)) ≤ 1)%nat
      ∧ (List.length (frames (browser w)) ≤ 1)%nat.
Proof.
  eexists. split; [vm_compute; reflexivity|]. intros w w'.
  split; [vm_compute; discriminate|].
  apply (one_sequence_in_flight w (expanded auto)).
  - eexists BlockScoped, NoWindow, (collapsed auto), 120, _,
      [Rendered (expanded auto); Elapsed 100].
    split; [vm_compute; reflexivity|reflexivity].
  - vm_compute; discriminate.
Defined.

(** C9 at an instance unmounted in the middle of a cycle. *)
Lemma unmount_cancels_everything_witness :
  ∃ w0, mount BlockScoped NoWindow (collapsed auto) 120 = Some w0
    ∧ let w := run w0 [Rendered (expanded auto)] in
      let w' := onBeforeUnmount w in
      let later := [AnimationFrame; Elapsed 250; TimerDue 1] in
      List.length (timers (browser w)) = 1%nat
      ∧ List.length (frames (browser w)) = 1%nat
      ∧ timers (browser w') = []
      ∧ frames (browser w') = []
      ∧ emitted (browser (run w' later)) = emitted (browser w)
      ∧ closure (run w' later) = closure w'.
Proof.
  eexists. split; [vm_compute; reflexivity|].
  split; [reflexivity|]. split; [reflexivity|].
  apply (unmount_cancels_everything
           _ [AnimationFrame; Elapsed 250; TimerDue 1]).
  - eexists BlockScoped, NoWindow, (collapsed auto), 120, _,
      [Rendered (expanded auto)].
    split; [vm_compute; reflexivity|reflexivity].
  - reflexivity.
Defined.

(** ** Where the code departs from its description *)

(** C1, at [collapsedHeight = 0] with content 120 high.  The height the
    sequencer animates to is the variable [height], which [setup] sets to
    the collapsed height and nothing assigns afterwards.  Switching
    [isExpanded] on therefore starts a cycle towards [0]: it emits
    [animationStart] and [animationEnd] with [newHeight] [0], never sets
    the "down" or "to-height-specific" class, ends on the static "zero"
    class and hides the content.  (With block-scoped [let] the instance
    does not even mount, see C7.) *)
Theorem expanding_from_zero_animates_to_zero :
  mount BlockScoped NoWindow (collapsed (JNum 0)) 120 = None
  ∧ ∃ w0, mount LoweredToVar NoWindow (collapsed (JNum 0)) 120 = Some w0
    ∧ let w1 := run w0 [Rendered (expanded (JNum 0))] in
      let w2 := run w1 [Elapsed 250; TimerDue 1] in
      emittedBy w1 = [animationStart (JNum 0)]
      ∧ classesOf w1 !! "vah-animating--down" = Some false
      ∧ classesOf w1 !! "vah-animating--to-height-specific" = Some false
      ∧ classesOf w1 !! "vah-animating--to-height-zero" = Some true
      ∧ emittedBy w2 = [animationStart (JNum 0); animationEnd (JNum 0)]
      ∧ classesOf w2 !! "vah-static--height-specific" = Some false
      ∧ classesOf w2 !! "vah-static--height-zero" = Some true
      ∧ displayOf w2 = Some "none".
Proof.
  split; [reflexivity|].
  eexists. split; [vm_compute; reflexivity|].
  vm_compute. repeat split.
Qed.

(** The path C1 describes is there, but only a collapsed height of
    ['auto'] reaches it: the cycle then targets the measured height, with
    [animationStart] held back until the next animation frame. *)
Example auto_animates_to_content_height sem :
  ∃ w0, mount sem NoWindow (collapsed auto) 120 = Some w0
    ∧ let w1 := run w0 [Rendered (expanded auto)] in
      let w2 := run w1 [AnimationFrame] in
      let w3 := run w2 [Elapsed 250; TimerDue 1] in
      emittedBy w1 = []
      ∧ classesOf w1 !! "vah-animating--down" = Some true
      ∧ classesOf w1 !! "vah-animating--to-height-specific" = Some true
      ∧ emittedBy w2 = [animationStart (JNum 120)]
      ∧ emittedBy w3 = [animationStart (JNum 120); animationEnd (JNum 120)]
      ∧ classesOf w3 !! "vah-static--height-specific" = Some true.
Proof.
  destruct sem; (eexists; split; [vm_compute; reflexivity|]);
    vm_compute; repeat split.
Qed.

(** C2, after [isExpanded] went from [false] to [true].  The guard of
    [onUpdated] compares with [prevIsExpanded], which [setup] sets and
    nothing assigns afterwards, so a re-render that leaves [isExpanded] at
    [true] runs the sequencer again: the pending completion timer is
    replaced by one with a later due time and [animationStart] is emitted
    once more. *)
Theorem rerender_restarts_the_cycle sem :
  ∃ w0, mount sem NoWindow (collapsed auto) 120 = Some w0
    ∧ let w1 := run w0 [Rendered (expanded auto); AnimationFrame;
                        Elapsed 100] in
      let w2 := run w1 [Rendered (expanded auto); AnimationFrame] in
      emittedBy w1 = [animationStart (JNum 120)]
      ∧ (λ t, (t.1.1, t.1.2)) <$> timers (browser w1) = [(1%nat, 250)]
      ∧ emittedBy w2 = [animationStart (JNum 120); animationStart (JNum 120)]
      ∧ (λ t, (t.1.1, t.1.2)) <$> timers (browser w2) = [(2%nat, 350)].
Proof.
  destruct sem; (eexists; split; [vm_compute; reflexivity|]);
    vm_compute; repeat split.
Qed.

(** C3, after [isExpanded] went from [false] to [true] and the cycle has
    ended.  The validator rejects [-5] and ["abc"] and logs one error for
    each, and the new [collapsedHeight] is never read; but the re-render it
    causes passes the guard of [onUpdated] for the reason given at C2, so
    a cycle starts and [animationStart] is emitted. *)
Theorem invalid_collapsedHeight_starts_a_cycle sem :
  (validator (JNum (-5))).1 = false
  ∧ List.length (validator (JNum (-5))).2 = 1%nat
  ∧ (validator (JStr "abc")).1 = false
  ∧ List.length (validator (JStr "abc")).2 = 1%nat
  ∧ ∃ w0, mount sem NoWindow (collapsed auto) 120 = Some w0
    ∧ let w1 := run w0 (wholeCycle w0 (expanded auto)) in
      let w2 := run w1 [Rendered (withCollapsedHeight (JNum (-5))
                                    (expanded auto));
                        AnimationFrame] in
      let w3 := run w1 [Rendered (withCollapsedHeight (JStr "abc")
                                    (expanded auto));
                        AnimationFrame] in
      emittedBy w1 = [animationStart (JNum 120); animationEnd (JNum 120)]
      ∧ timers (browser w1) = []
      ∧ emittedBy w2 = [animationStart (JNum 120); animationEnd (JNum 120);
                        animationStart (JNum 120)]
      ∧ List.length (timers (browser w2)) = 1%nat
      ∧ emittedBy w3 = emittedBy w2.
Proof.
  do 4 (split; [reflexivity|]).
  destruct sem; (eexists; split; [vm_compute; reflexivity|]);
    vm_compute; repeat split.
Qed.

(** C4, with the reduced-motion preference detected and the default
    duration of 250.  The render function takes its timings from
    [getTimings] and writes [0ms] twice into the transition string;
    [onUpdated] takes [delay] and [duration] from the props, so the
    completion timer is due 250 later. *)
Theorem reduced_motion_keeps_the_timer_delay sem :
  ∃ w0, mount sem (MatchMedia true) (collapsed auto) 120 = Some w0
    ∧ let w1 := run w0 [Rendered (expanded auto); AnimationFrame] in
      prefersReducedMotion (closure w1) = true
      ∧ getTimings (expanded auto) (closure w1) = (0, 0)
      ∧ v_transition (render (expanded auto) noAttrs (closure w1))
        = Some "height 0ms ease 0ms"
      ∧ now (browser w1) = 0
      ∧ (λ t, (t.1.1, t.1.2)) <$> timers (browser w1) = [(1%nat, 250)]
      ∧ emittedBy (run w1 [TimerDue 1]) = [animationStart (JNum 120)]
      ∧ emittedBy (run w1 [Elapsed 250; TimerDue 1])
        = [animationStart (JNum 120); animationEnd (JNum 120)].
Proof.
  destruct sem; (eexists; split; [vm_compute; reflexivity|]);
    vm_compute; repeat split.
Qed.

(** C7, at the valid heights [15] and ["50%"].  [parseHeight] writes
    [overflow = 'hidden'], but it is called one line before
    [let overflow = 'visible'] is evaluated: with block-scoped [let] the
    write throws and [setup] does not return; compiled to [var] the write
    is replaced by ['visible'], so the initial overflow of a height that is
    not ['auto'] is ["visible"].  Where [setup] returns, the current and
    the previous state are the same and hold the parsed height. *)
Theorem numeric_height_is_not_hidden :
  (validator (JNum 15)).1 = true
  ∧ (validator (JStr "50%")).1 = true
  ∧ setup BlockScoped NoWindow (collapsed (JNum 15)) = None
  ∧ setup BlockScoped NoWindow (collapsed (JStr "50%")) = None
  ∧ (∃ c, setup LoweredToVar NoWindow (collapsed (JNum 15)) = Some c
          ∧ s_height (state c) = JNum 15
          ∧ s_overflow (state c) = Some "visible"
          ∧ prevState c = state c)
  ∧ (∃ c, setup LoweredToVar NoWindow (collapsed (JStr "50%")) = Some c
          ∧ s_height (state c) = JStr "50%"
          ∧ s_overflow (state c) = Some "visible"
          ∧ prevState c = state c).
Proof.
  do 4 (split; [reflexivity|]).
  split; (eexists; split; [vm_compute; reflexivity|]); vm_compute;
    repeat split.
Qed.


(** * Further properties of the code *)

(** ** [parseHeight] and the validator *)

Section Parsing.

Lemma digits_unsnoc cs : ∀ acc init c,
  unsnoc cs = Some (init, c) → digit c = None → digits acc cs = None.
Proof.
  induction cs as [|x cs IH]; intros acc init c Hu Hd; [done|].
  simpl in *. destruct (unsnoc cs) as [[init' l]|] eqn:Hcs.
  - injection Hu as <- <-. destruct (digit x); [|done].
    by eapply IH.
  - injection Hu as <- <-. by rewrite Hd.
Qed.

Lemma unsnoc_cons (y : ascii) cs :
  ∃ init l, unsnoc (y :: cs) = Some (init, l).
Proof.
  revert y. induction cs as [|x cs IH]; intros y; [by eexists _, _|].
  destruct (IH x) as (i & l & Hx).
  exists (y :: i), l. change (unsnoc (y :: x :: cs)) with
    (match unsnoc (x :: cs) with
     | None => Some ([], y)
     | Some (init, l) => Some (y :: init, l)
     end).
  by rewrite Hx.
Qed.

Lemma unsnoc_cons_eq (x y : ascii) cs :
  unsnoc (x :: y :: cs)
  = (λ p, (x :: p.1, p.2)) <$> unsnoc (y :: cs).
Proof.
  destruct (unsnoc_cons y cs) as (i & l & Hy).
  change (unsnoc (x :: y :: cs)) with
    (match unsnoc (y :: cs) with
     | None => Some ([], x)
     | Some (init, l) => Some (x :: init, l)
     end).
  by rewrite Hy.
Qed.

Lemma percentage_not_number v : isPercentage v = true → toNumber v = None.
Proof.
  destruct v as [n|s]; [done|]. simpl. unfold parseNumber.
  destruct (unsnoc (list_ascii_of_string s)) as [[init c]|] eqn:Hu; [|done].
  destruct (Ascii.eqb_spec c "%") as [->|Hne];
    [|by destruct c as [[] [] [] [] [] [] [] []]].
  intros _.
  assert (Hd : digit "%" = None) by done.
  destruct (list_ascii_of_string s) as [|x [|y cs]] eqn:Hs; [done| |].
  - simpl in Hu. injection Hu as <- ->. done.
  - assert (Hall : digits 0 (x :: y :: cs) = None)
      by (by eapply digits_unsnoc).
    assert (Htl : digits 0 (y :: cs) = None).
    { rewrite unsnoc_cons_eq in Hu.
      destruct (unsnoc (y :: cs)) as [[i l]|] eqn:Hy; [|done].
      simpl in Hu. injection Hu as <- ->. by eapply digits_unsnoc. }
    destruct (Ascii.eqb_spec x "-") as [->|Hm];
      [cbn -[digits]; by rewrite Htl|].
    destruct (Ascii.eqb_spec x "+") as [->|Hpl];
      [cbn -[digits]; by rewrite Htl|].
    destruct x as [[] [] [] [] [] [] [] []]; first [exact Hall|done].
Qed.

End Parsing.

(** X1. Whatever it is given, [parseHeight] returns a number that is not
    negative, or ['auto'], or the value itself when that is a percentage
    string other than ["0%"]; it never returns a negative number, ["0%"]
    or any other string. *)
Theorem parseHeight_result sem v b h b' :
  parseHeight sem v b = Some (h, b') →
  (∃ n, h = JNum n ∧ 0 ≤ n)
  ∨ h = auto
  ∨ (h = v ∧ isPercentage v = true ∧ v ≠ JStr "0%").
Proof.
  unfold parseHeight. destruct (toNumber v) as [n|] eqn:Hn.
  - destruct (assign sem b "hidden"); simpl; [|done].
    intros [= <- <-]. left. exists (Z.max 0 n). split; [done|lia].
  - destruct (isPercentage v) eqn:Hp.
    + destruct (assign sem b "hidden"); simpl; [|done].
      intros [= <- <-]. unfold strict_eq. case_bool_decide.
      * left. exists 0. done.
      * right; right. done.
    + intros [= <- <-]. by right; left.
Qed.

Lemma parseHeight_result_witness :
  (∃ n, JNum 0 = JNum n ∧ 0 ≤ n)
  ∨ JNum 0 = auto
  ∨ (JNum 0 = JNum (-7) ∧ isPercentage (JNum (-7)) = true
     ∧ JNum (-7) ≠ JStr "0%").
Proof.
  apply (parseHeight_result LoweredToVar (JNum (-7)) None (JNum 0)
           (Some "hidden")).
  reflexivity.
Defined.

(** X2. A value the validator accepts is kept as it is, except that
    ["0%"] becomes the number [0]; the variable [overflow] is written (to
    ['hidden']) unless the value is ['auto']. *)
Theorem parseHeight_keeps_valid v b :
  (validator v).1 = true →
  parseHeight LoweredToVar v b
  = Some (if v === JStr "0%" then JNum 0 else v,
          if v === auto then b else Some "hidden").
Proof.
  unfold validator. destruct (_ || _) eqn:Hv; [intros _|done].
  apply orb_prop in Hv as [[Hn|Hp]%orb_prop|Ha].
  - destruct v as [n|s]; [|done]. apply Z.leb_le in Hn.
    unfold parseHeight. simpl. by rewrite Z.max_r.
  - unfold parseHeight. rewrite (percentage_not_number v Hp), Hp. simpl.
    assert (Hna : v === auto = false).
    { apply bool_decide_eq_false_2. by intros ->. }
    by rewrite Hna.
  - apply bool_decide_eq_true_1 in Ha. by subst.
Qed.

Lemma parseHeight_keeps_valid_witness :
  (validator (JStr "50%")).1 = true
  ∧ parseHeight LoweredToVar (JStr "50%") None
    = Some (JStr "50%", Some "hidden").
Proof.
  split; [reflexivity|].
  apply (parseHeight_keeps_valid (JStr "50%") None). reflexivity.
Defined.

(** ** The set-up *)

(** X3. With block-scoped [let], [setup] throws exactly when the collapsed
    height is numeric or a percentage, that is, when [parseHeight] reaches
    one of its two writes to [overflow]; compiled to [var] it always
    returns.  Whenever it returns, the initial overflow is ['visible'],
    the previous state is the current one, no transition is in use and the
    state height is the parsed collapsed height. *)
Theorem setup_returns sem window props :
  (setup sem window props = None
   ↔ sem = BlockScoped
     ∧ (isNumber (p_collapsedHeight props) = true
        ∨ isPercentage (p_collapsedHeight props) = true))
  ∧ ∀ c, setup sem window props = Some c →
         s_overflow (state c) = Some "visible"
         ∧ prevState c = state c
         ∧ s_shouldUseTransitions (state c) = false
         ∧ s_height (state c) = collapsedHeight c
         ∧ height c = collapsedHeight c
         ∧ prevIsExpanded c = p_isExpanded props.
Proof.
  unfold setup, parseHeight, isNumber.
  destruct (toNumber (p_collapsedHeight props)) as [n|] eqn:Hn;
    [|destruct (isPercentage (p_collapsedHeight props)) eqn:Hp];
    destruct sem; simpl; (split; [split|]).
  all: try (intros c [= <-]; done).
  all: try done.
  all: try (intros _; split; [done|]; by auto).
  all: try (by intros [? _]).
  all: by intros [_ [?|?]].
Qed.

(** ** The start of a cycle, spelled out *)

Section CycleStart.

Variables (w : World) (props : Props).
Hypothesis HI : Inv w.
Hypothesis Hstarts : prevIsExpanded (closure w) ≠ p_isExpanded props.

Let c := closure w.
Let b := browser w.
Let names := animationStateClasses c.
Let measured :=
  setContentElement
    ((λ el, MkElement (display el) EmptyString (naturalHeight el))
       <$> contentElement (shown c)) (shown c).

Lemma js_lt_irrefl h : js_lt h h = false.
Proof.
  destruct h as [n|s]; simpl; [apply Z.ltb_irrefl|].
  unfold String.ltb. pose proof (String.compare_antisym s s) as H.
  by destruct (String.compare s s).
Qed.

Lemma onUpdated_from_auto_eq :
  height c = auto →
  onUpdated props w
  = let k := contentHeight c in
    let ts := MkTimeoutState None (JNum k) None (Some true) in
    MkWorld
      (setAnimationClassesTimeoutId (Handle (nextTimer b))
         (setAnimationFrameIds [nextFrame b]
            (updateState
               (MkState
                  (objectLiteral [
                     (animating names, true);
                     (animatingUp names, true);
                     (animatingDown names, true);
                     (animatingToHeightZero names, JNum k === JNum 0);
                     (animatingToHeightAuto names, false);
                     (animatingToHeightSpecific names, 0 <? k)])
                  (JNum k) (Some "hidden") false)
               measured)))
      (MkBrowser (now b) (S (nextTimer b))
         [(nextTimer b, now b + Z.max 0 (p_duration props + p_delay props),
           EndFromAuto ts (getStaticStateClasses names (JNum k)))]
         (S (nextFrame b)) [(nextFrame b, StartFromAuto ts)] (emitted b)).
Proof.
  intros Hauto. subst c b names measured.
  destruct w as [c b].
  destruct HI as [[el Hel] Hprev Hparsed Hth Hfh Ht1 Hf1 Htf Hff Hpf Htok Hfok];
    simpl in *.
  unfold onUpdated; simpl closure; simpl browser.
  rewrite Hel, bool_decide_eq_false_2 by done. cbv zeta.
  autorewrite with closure; simpl; autorewrite with closure; simpl.
  rewrite Hprev, Hauto. simpl.
  rewrite clear_both_timers by done. simpl.
  rewrite filter_frames_nil by done. simpl.
  unfold contentHeight, shown. rewrite Hauto. reflexivity.
Qed.

Lemma onUpdated_plain_eq :
  height c ≠ auto →
  onUpdated props w
  = let nh :=
      match toNumber (height c) with
      | Some n => JNum (Z.max 0 n)
      | None => if height c === JStr "0%" then JNum 0 else height c
      end in
    let ts := MkTimeoutState (Some "hidden") nh None None in
    MkWorld
      (setTimeoutId (Handle (nextTimer b))
         (updateState
            (MkState
               (objectLiteral [
                  (animating names, true);
                  (animatingUp names, false);
                  (animatingDown names, false);
                  (animatingToHeightZero names, nh === JNum 0);
                  (animatingToHeightAuto names, false);
                  (animatingToHeightSpecific names, js_gt nh (JNum 0))])
               nh (Some "hidden") true)
            measured))
      (MkBrowser (now b) (S (nextTimer b))
         [(nextTimer b, now b + Z.max 0 (p_duration props + p_delay props),
           EndPlain ts (getStaticStateClasses names nh) nh)]
         (nextFrame b) [] (emitted b ++ [animationStart nh])).
Proof.
  intros Hna. subst c b names measured.
  destruct w as [c b].
  destruct HI as [[el Hel] Hprev Hparsed Hth Hfh Ht1 Hf1 Htf Hff Hpf Htok Hfok];
    simpl in *.
  assert (Hf : height c === auto = false)
    by (by apply bool_decide_eq_false_2).
  unfold onUpdated; simpl closure; simpl browser.
  rewrite Hel, bool_decide_eq_false_2 by done. cbv zeta.
  autorewrite with closure; simpl; autorewrite with closure; simpl.
  rewrite Hprev, Hf. simpl.
  rewrite clear_both_timers by done. simpl.
  rewrite (Hpf Hna).
  unfold js_gt. rewrite !js_lt_irrefl. unfold shown.
  destruct (toNumber (height c)) as [n|] eqn:Hn; simpl; [reflexivity|].
  destruct (isPercentage (height c)) eqn:Hp; simpl.
  - assert (Hnh : (if height c === JStr "0%" then JNum 0 else height c)
                  === auto = false).
    { case_match; [done|]. done. }
    rewrite Hnh. reflexivity.
  - exfalso. by apply Hna, Hparsed.
Qed.

End CycleStart.

(** ** More that holds in every reachable world *)

Section Invariant2.

Lemma settled_not_auto h : settled h → h ≠ auto.
Proof. intros Hs ->. done. Qed.

Lemma settled_number n : settled (JNum (Z.max 0 n)).
Proof. simpl. lia. Qed.

Lemma settled_percentage h :
  isPercentage h = true → settled (if h === JStr "0%" then JNum 0 else h).
Proof.
  intros Hp. case_match; [done|]. by destruct h.
Qed.

Lemma parseHeight_settled sem v b h b' :
  parseHeight sem v b = Some (h, b') →
  h = auto ∨ (settled h ∧ h ≠ JStr "0%").
Proof.
  unfold parseHeight. destruct (toNumber v) as [n|] eqn:Hn.
  - destruct (assign sem b "hidden"); simpl; [|done].
    intros [= <- <-]. right. split; [apply settled_number|done].
  - destruct (isPercentage v) eqn:Hp; [|by intros [= <- <-]; left].
    destruct (assign sem b "hidden"); simpl; [|done].
    intros [= <- <-]. right. split; [by apply settled_percentage|].
    unfold strict_eq. by case_bool_decide.
Qed.

Lemma contentHeight_nonneg c : 0 ≤ contentHeight c.
Proof.
  unfold contentHeight. destruct (contentElement (shown c)) as [el|]; [|done].
  simpl. unfold offsetHeight. case_bool_decide; lia.
Qed.

Lemma shown_hidden c :
  display <$> contentElement (shown c) = Some "none" →
  display <$> contentElement c = Some "none"
  ∧ s_height (prevState c) ≠ collapsedHeight c.
Proof.
  unfold shown, showContent. simpl. unfold strict_eq. case_bool_decide.
  - simpl. by destruct (contentElement c).
  - done.
Qed.

Lemma hideContent_display h c :
  display <$> contentElement (hideContent h c)
  = if h === JNum 0 then (λ _, "none") <$> contentElement c
    else display <$> contentElement c.
Proof.
  unfold hideContent. case_match; [|done].
  simpl. by destruct (contentElement c).
Qed.

Lemma plain_target h :
  settled h → h ≠ JStr "0%" →
  match toNumber h with
  | Some n => JNum (Z.max 0 n)
  | None => if h === JStr "0%" then JNum 0 else h
  end = h.
Proof.
  intros Hs Hz. destruct h as [n|s].
  - simpl in *. by rewrite Z.max_r.
  - rewrite (percentage_not_number _ Hs). unfold strict_eq.
    by rewrite bool_decide_eq_false_2.
Qed.

Lemma shown_hidden_height c :
  display <$> contentElement (shown c) = Some "none" → contentHeight c = 0.
Proof.
  unfold contentHeight. destruct (contentElement (shown c)) as [el|]; [|done].
  simpl. intros [= Hd]. unfold offsetHeight.
  by rewrite bool_decide_eq_true_2.
Qed.

Lemma shown_visible c :
  s_height (prevState c) = collapsedHeight c →
  display <$> contentElement (shown c) ≠ Some "none".
Proof.
  intros Heq. unfold shown, showContent. simpl. unfold strict_eq.
  rewrite bool_decide_eq_true_2 by done. simpl.
  by destruct (contentElement c).
Qed.

Lemma measured_display (o : option Element) :
  display <$> ((λ el, MkElement (display el) EmptyString (naturalHeight el))
               <$> o)
  = display <$> o.
Proof. by destruct o. Qed.

Lemma mount_Inv2 sem window props natural w :
  mount sem window props natural = Some w → Inv2 w.
Proof.
  unfold mount, setup.
  destruct (parseHeight sem (p_collapsedHeight props) None)
    as [[h b']|] eqn:Hp; simpl; [|done].
  intros [= <-]. apply parseHeight_settled in Hp.
  unfold onMounted; simpl.
  split; simpl; autorewrite with closure; simpl; try done;
    try (by intros ? ?%elem_of_nil).
  - destruct Hp as [->|[Hs _]]; [by left|by right].
  - intros ->. unfold pristine. by autorewrite with closure.
  - intros ->. done.
  - rewrite hideContent_display. simpl. unfold strict_eq.
    case_bool_decide; [done|]. done.
Qed.

Lemma onUpdated_Inv2 w props : Inv w → Inv2 w → Inv2 (onUpdated props w).
Proof.
  intros HI HJ.
  destruct (decide (prevIsExpanded (closure w) = p_isExpanded props))
    as [He|Hne]; [by rewrite onUpdated_same|].
  pose proof (contentHeight_nonneg (closure w)) as Hk.
  destruct (decide (height (closure w) = auto)) as [Ha|Hna].
  - rewrite (onUpdated_from_auto_eq w props HI Hne Ha). cbv zeta.
    destruct HJ as [Hh He Ht Hf Hs Hp Hhid Hht Hpl Hplt Hple Hdis].
    split; simpl; unfold shown; autorewrite with closure; simpl; try done;
      try (intros; congruence).
    + by intros t ->%list_elem_of_singleton.
    + by intros f ->%list_elem_of_singleton.
    + by right.
    + intros Hc Hd. split; [done|]. rewrite measured_display in Hd.
      apply (shown_hidden (closure w)) in Hd as [Hd _].
      by apply Hhid.
    + intros Hd. rewrite measured_display in Hd.
      apply (shown_hidden_height (closure w)) in Hd. by rewrite Hd.
  - rewrite (onUpdated_plain_eq w props HI Hne Hna). cbv zeta.
    assert (Hs : settled
              match toNumber (height (closure w)) with
              | Some n => JNum (Z.max 0 n)
              | None => if height (closure w) === JStr "0%" then JNum 0
                        else height (closure w)
              end).
    { destruct (toNumber (height (closure w))) eqn:Hn;
        [apply settled_number|].
      apply settled_percentage.
      destruct (isPercentage (height (closure w))) eqn:Hp; [done|].
      exfalso. by apply Hna, (inv_parsed w HI). }
    assert (Hnh : match toNumber (height (closure w)) with
                  | Some n => JNum (Z.max 0 n)
                  | None => if height (closure w) === JStr "0%" then JNum 0
                            else height (closure w)
                  end = height (closure w)).
    { destruct (inv2_height w HJ) as [?|[? ?]]; [done|].
      by apply plain_target. }
    rewrite Hnh in *.
    destruct HJ as [Hh He Ht Hf Hst Hp Hhid Hht Hpl Hplt Hple Hdis].
    split; simpl; unfold shown; autorewrite with closure; simpl; try done;
      try (by intros ? ?%elem_of_nil); try (intros; congruence);
      try (by intros t ->%list_elem_of_singleton).
    + intros e [Hin| ->%list_elem_of_singleton]%elem_of_app; auto.
    + by right.
    + intros _. split; [done|]. by apply Hpl.
    + intros e [Hin| ->%list_elem_of_singleton]%elem_of_app _;
        [by apply Hple|done].
    + intros Hd. rewrite measured_display in Hd.
      exfalso. apply (shown_visible (closure w)); [|done].
      destruct (Hpl Hna) as [_ ->]. done.
Qed.

Lemma fireTimer_Inv2 w id : Inv w → Inv2 w → Inv2 (fireTimer id w).
Proof.
  intros HI HJ. unfold fireTimer.
  destruct (List.find _ _) as [[[id' due] cb]|] eqn:Hfind; [|done].
  apply find_some in Hfind as [Hin [Hid _]%andb_prop].
  apply bool_decide_eq_true_1 in Hid. simpl in Hid. subst id'.
  pose proof (inv_timers_one w HI) as Hone.
  pose proof (inv_timers_ok w HI (id, due, cb)) as Hok.
  pose proof (inv_plain_frames w HI) as Hpf.
  destruct HJ as [Hh He Ht Hf Hst Hp Hhid Hht Hpl Hplt Hple Hdis].
  pose proof (Ht (id, due, cb)) as Hcar.
  destruct w as [c b]. simpl in *.
  assert (Hts : timers b = [(id, due, cb)]).
  { destruct (timers b) as [|t [|t' l]]; simpl in *; [done| |lia].
    by destruct Hin as [->|[]]. }
  rewrite Hts in *. specialize (Hok ltac:(left)). specialize (Hcar ltac:(left)).
  simpl in Hok, Hcar.
  rewrite filter_cons, decide_False by (simpl; tauto).
  rewrite filter_nil. unfold onBrowser, runCallback; simpl.
  destruct cb as [ts|ts cls|ts cls nh]; [done| |]; simpl in *.
  - destruct Hok as (-> & Hsh & Ha).
    apply settled_not_auto in Hcar as Hna.
    split; simpl; autorewrite with closure; simpl; try done;
      try (by intros ? ?%elem_of_nil); try (intros; congruence).
    all: rewrite ?hideContent_display; simpl.
    + intros e [Hin'| ->%list_elem_of_singleton]%elem_of_app; auto.
    + intros _ _. split; congruence.
    + unfold strict_eq. case_bool_decide as Hz; [intros _; congruence|done].
  - destruct Hok as (-> & Hsh & Hna).
    assert (Hf' : (height c !== auto) = true).
    { unfold strict_eq. by rewrite bool_decide_eq_false_2. }
    rewrite Hf'. apply settled_not_auto in Hcar as Hnh.
    pose proof (Hplt _ ltac:(left) Hna) as Hnh'. simpl in Hnh'.
    split; simpl; autorewrite with closure; simpl; rewrite ?Hsh; try done;
      try (by intros ? ?%elem_of_nil); try (intros; congruence).
    + intros e [Hin'| ->%list_elem_of_singleton]%elem_of_app; auto.
    + by right.
    + intros _. split; [done|]. by apply Hpl.
    + intros e [Hin'| ->%list_elem_of_singleton]%elem_of_app _;
        [by apply Hple|done].
    + rewrite hideContent_display. simpl. unfold strict_eq.
      case_bool_decide as Hz; [done|].
      intros Hd. rewrite Hnh'. rewrite <- (proj1 (Hpl Hna)). by apply Hdis.
Qed.

Lemma fireFrames_Inv2 w : Inv w → Inv2 w → Inv2 (fireFrames w).
Proof.
  intros HI HJ. unfold fireFrames.
  pose proof (inv_frames_one w HI) as Hone.
  destruct HJ as [Hh He Ht Hf Hst Hp Hhid Hht Hpl Hplt Hple Hdis].
  destruct w as [c b]. simpl in *.
  destruct (frames b) as [|[id cb] [|f' l]] eqn:Hfs; simpl in *; [| |lia].
  - split; simpl; try done; by intros ? ?%elem_of_nil.
  - pose proof (inv_frames_ok _ HI (id, cb)) as Hok. simpl in Hok.
    rewrite Hfs in Hok. specialize (Hok ltac:(left)).
    pose proof (Hf (id, cb) ltac:(left)) as Hcar. simpl in Hcar.
    destruct cb as [ts|ts cls|ts cls nh]; [|done|done]. simpl in *.
    apply settled_not_auto in Hcar as Hna.
    assert (Ha : height c = auto).
    { destruct (decide (height c = auto)) as [|Hn]; [done|].
      pose proof (inv_plain_frames _ HI Hn) as Hnil. simpl in Hnil.
      by rewrite Hfs in Hnil. }
    unfold runCallback; simpl.
    split; simpl; try done; try (by intros ? ?%elem_of_nil);
      try (intros; congruence).
    + intros e [Hin'| ->%list_elem_of_singleton]%elem_of_app; auto.
    + intros _ _. split; congruence.
    + intros Hd. rewrite Hok. by apply Hdis.
Qed.

Lemma step_Inv2 w e : Inv w → Inv2 w → Inv2 (step w e).
Proof.
  intros HI HJ. destruct e as [props|ms|id| |h|]; simpl.
  - by apply onUpdated_Inv2.
  - destruct HJ. by split.
  - by apply fireTimer_Inv2.
  - by apply fireFrames_Inv2.
  - destruct HJ as [Hh He Ht Hf Hst Hp Hhid Hht Hpl Hplt Hple Hdis].
    split; simpl; try done.
    + intros Hc Hd. apply Hhid; [done|].
      by destruct (contentElement (closure w)).
    + intros Hd. apply Hdis.
      by destruct (contentElement (closure w)).
  - unfold onBeforeUnmount.
    rewrite clear_both_timers
      by (intros t; unfold cancelAnimationFrames; simpl;
          apply (inv_timer_handles _ HI)).
    rewrite cancel_all_frames by apply (inv_frame_handles _ HI).
    destruct HJ as [Hh He Ht Hf Hst Hp Hhid Hht Hpl Hplt Hple Hdis].
    split; simpl; try done; try (by intros ? ?%elem_of_nil).
    intros Ha. by destruct (Hp Ha) as (-> & -> & _).
Qed.

Lemma run_Inv2 w events : Inv w → Inv2 w → Inv2 (run w events).
Proof.
  revert w. induction events as [|e events IH]; intros w HI HJ; [done|].
  simpl. apply IH; [by apply step_Inv|by apply step_Inv2].
Qed.

Lemma reachable_Inv2 w : reachable w → Inv2 w.
Proof.
  intros (sem & window & props & natural & w0 & events & Hm & <-).
  apply run_Inv2; [eapply mount_Inv, Hm|eapply mount_Inv2, Hm].
Qed.

End Invariant2.

(** ** Class maps *)

(** X4. When the four static class names are pairwise different,
    [getStaticStateClasses] always sets the static class and sets the
    zero, specific and auto classes by the shape of the height: zero for
    the number [0], specific for a positive number, auto for ['auto'].  No
    two of the three are set together, and a percentage height sets none
    of them. *)
Theorem static_classes_by_shape names h :
  NoDup [static names; staticHeightZero names; staticHeightSpecific names;
         staticHeightAuto names] →
  let m := getStaticStateClasses names h in
  let zero := h === JNum 0 in
  let specific := match h with JNum n => 0 <? n | JStr _ => false end in
  let isAuto := h === auto in
  m !! static names = Some true
  ∧ m !! staticHeightZero names = Some zero
  ∧ m !! staticHeightSpecific names = Some specific
  ∧ m !! staticHeightAuto names = Some isAuto
  ∧ zero && specific = false
  ∧ zero && isAuto = false
  ∧ specific && isAuto = false
  ∧ (isPercentage h = true →
     zero = false ∧ specific = false ∧ isAuto = false).
Proof.
  intros Hnd.
  apply NoDup_cons in Hnd as [H1 Hnd]. apply NoDup_cons in Hnd as [H2 Hnd].
  apply NoDup_cons in Hnd as [H3 _].
  assert (static names ≠ staticHeightZero names) by set_solver.
  assert (static names ≠ staticHeightSpecific names) by set_solver.
  assert (static names ≠ staticHeightAuto names) by set_solver.
  assert (staticHeightZero names ≠ staticHeightSpecific names) by set_solver.
  assert (staticHeightZero names ≠ staticHeightAuto names) by set_solver.
  assert (staticHeightSpecific names ≠ staticHeightAuto names) by set_solver.
  unfold getStaticStateClasses, objectLiteral. simpl.
  split_and!; try by simplify_map_eq.
  - destruct h as [n|s]; unfold strict_eq; repeat case_bool_decide;
      simplify_eq; done.
  - destruct h as [n|s]; unfold strict_eq; repeat case_bool_decide;
      simplify_eq; done.
  - destruct h as [n|s]; unfold strict_eq; repeat case_bool_decide;
      simplify_eq; try done. apply andb_false_r.
  - intros Hp. destruct h as [n|s]; [done|].
    split_and!; [done|done|].
    unfold strict_eq. apply bool_decide_eq_false_2. by intros [= ->].
Qed.

Lemma static_classes_by_shape_witness :
  let m := getStaticStateClasses ANIMATION_STATE_CLASSES (JStr "50%") in
  m !! "vah-static" = Some true
  ∧ m !! "vah-static--height-zero" = Some false
  ∧ m !! "vah-static--height-specific" = Some false
  ∧ m !! "vah-static--height-auto" = Some false.
Proof.
  assert (Hnd : NoDup [static ANIMATION_STATE_CLASSES;
                       staticHeightZero ANIMATION_STATE_CLASSES;
                       staticHeightSpecific ANIMATION_STATE_CLASSES;
                       staticHeightAuto ANIMATION_STATE_CLASSES]).
  { apply (bool_decide_unpack _). vm_compute. exact I. }
  pose proof (static_classes_by_shape ANIMATION_STATE_CLASSES (JStr "50%")
                Hnd) as H.
  cbv zeta in H. destruct H as (H1 & H2 & H3 & H4 & _).
  intros m. split_and!; [exact H1|exact H2|exact H3|exact H4].
Defined.

(** ** What [setup] fixes *)

Lemma showContent_overflow h c : overflow (showContent h c) = overflow c.
Proof. unfold showContent; case_match; reflexivity. Qed.
Lemma hideContent_overflow h c : overflow (hideContent h c) = overflow c.
Proof. unfold hideContent; case_match; reflexivity. Qed.
Lemma showContent_prefersReducedMotion h c :
  prefersReducedMotion (showContent h c) = prefersReducedMotion c.
Proof. unfold showContent; case_match; reflexivity. Qed.
Lemma hideContent_prefersReducedMotion h c :
  prefersReducedMotion (hideContent h c) = prefersReducedMotion c.
Proof. unfold hideContent; case_match; reflexivity. Qed.

#[local] Hint Rewrite
  showContent_overflow hideContent_overflow
  showContent_prefersReducedMotion hideContent_prefersReducedMotion
  : closure.

Lemma runCallback_sameSetup cb w :
  sameSetup (closure w) (closure (runCallback cb w)).
Proof.
  unfold runCallback, sameSetup. destruct cb; simpl;
    repeat case_match; split_and!; autorewrite with closure; done.
Qed.

Lemma sameSetup_trans c1 c2 c3 :
  sameSetup c1 c2 → sameSetup c2 c3 → sameSetup c1 c3.
Proof. unfold sameSetup. intuition congruence. Qed.

Lemma foldl_runCallback_sameSetup (fs : list (nat * Callback)) w :
  sameSetup (closure w) (closure (foldl (λ w f, runCallback f.2 w) w fs)).
Proof.
  revert w. induction fs as [|f fs IH]; intros w; [done|].
  simpl. eapply sameSetup_trans; [apply runCallback_sameSetup|apply IH].
Qed.

Lemma step_sameSetup w e : sameSetup (closure w) (closure (step w e)).
Proof.
  destruct e as [props|ms|id| |h|]; simpl; try done.
  - unfold onUpdated, sameSetup.
    repeat case_match; simpl; split_and!; autorewrite with closure;
      simpl; autorewrite with closure; done.
  - unfold fireTimer. repeat case_match; [|done].
    apply (runCallback_sameSetup _ (onBrowser _ w)).
  - unfold fireFrames. apply (foldl_runCallback_sameSetup _ (onBrowser _ w)).
Qed.

Lemma run_sameSetup w events :
  sameSetup (closure w) (closure (run w events)).
Proof.
  revert w. induction events as [|e events IH]; intros w; [done|].
  simpl. eapply (sameSetup_trans _ (closure (step w e)));
    [apply step_sameSetup|apply IH].
Qed.

Lemma mount_prevIsExpanded sem window props natural w0 :
  mount sem window props natural = Some w0 →
  prevIsExpanded (closure w0) = p_isExpanded props.
Proof.
  unfold mount, setup.
  destruct (parseHeight sem (p_collapsedHeight props) None); [|done].
  simpl. intros [= <-]. unfold onMounted. simpl.
  by autorewrite with closure.
Qed.

(** X5. Six variables of the closure are written by [setup] and by nothing
    else: whatever happens afterwards, the collapsed height, the height the
    sequencer animates to, [overflow], the merged class names, the
    reduced-motion flag and [prevIsExpanded] keep their values; later
    changes of the props do not reach them. *)
Theorem setup_values_are_kept w events :
  let c := closure w in
  let c' := closure (run w events) in
  collapsedHeight c' = collapsedHeight c
  ∧ height c' = height c
  ∧ overflow c' = overflow c
  ∧ animationStateClasses c' = animationStateClasses c
  ∧ prefersReducedMotion c' = prefersReducedMotion c
  ∧ prevIsExpanded c' = prevIsExpanded c.
Proof. apply run_sameSetup. Qed.

(** X6. A re-render whose [isExpanded] is the value the instance was set up
    with changes nothing, at any time: no cycle starts, nothing is emitted
    or scheduled, and what is pending stays pending.  In particular
    switching [isExpanded] back never animates. *)
Theorem setup_value_of_isExpanded_is_ignored
    sem window props natural w0 events props' :
  mount sem window props natural = Some w0 →
  p_isExpanded props' = p_isExpanded props →
  step (run w0 events) (Rendered props') = run w0 events.
Proof.
  intros Hm He. simpl. apply onUpdated_same.
  destruct (run_sameSetup w0 events) as (_ & _ & _ & _ & _ & ->).
  rewrite (mount_prevIsExpanded _ _ _ _ _ Hm). congruence.
Qed.

Lemma setup_value_of_isExpanded_is_ignored_witness :
  ∃ w0, mount BlockScoped NoWindow (collapsed auto) 120 = Some w0
    ∧ let w := run w0 [Rendered (expanded auto); AnimationFrame] in
      List.length (timers (browser w)) = 1%nat
      ∧ step w (Rendered (collapsed auto)) = w.
Proof.
  eexists. split; [vm_compute; reflexivity|]. intros w.
  split; [reflexivity|].
  apply (setup_value_of_isExpanded_is_ignored
           BlockScoped NoWindow (collapsed auto) 120 _
           [Rendered (expanded auto); AnimationFrame] (collapsed auto)).
  - vm_compute; reflexivity.
  - reflexivity.
Defined.

(** ** The state at the start of a cycle *)

Lemma plain_target_reachable w :
  reachable w →
  height (closure w) ≠ auto →
  match toNumber (height (closure w)) with
  | Some n => JNum (Z.max 0 n)
  | None => if height (closure w) === JStr "0%" then JNum 0
            else height (closure w)
  end = height (closure w).
Proof.
  intros Hreach Hna.
  destruct (inv2_height w (reachable_Inv2 w Hreach)) as [?|[? ?]];
    [done|]. by apply plain_target.
Qed.

Section FullCycle.

Variables (w : World) (props : Props).
Hypothesis Hreach : reachable w.
Hypothesis Hstarts : prevIsExpanded (closure w) ≠ p_isExpanded props.

Let c := closure w.
Let names := animationStateClasses c.


End FullCycle.

(** ** Heights over the life of an instance *)

Lemma run_app w (es1 es2 : list Event) :
  run w (es1 ++ es2)%list = run (run w es1) es2.
Proof. apply foldl_app. Qed.

Lemma reachable_run w events : reachable w → reachable (run w events).
Proof.
  intros (sem & window & props & natural & w0 & es & Hm & <-).
  exists sem, window, props, natural, w0, (es ++ events)%list.
  split; [done|apply run_app].
Qed.

(** X9. Every event an instance emits carries a number that is not
    negative or a percentage string: [newHeight] is never ['auto'] and
    never negative. *)
Theorem emitted_heights_are_settled w e :
  reachable w → e ∈ emitted (browser w) → settled (payload e).
Proof. intros Hr. apply (inv2_emitted w (reachable_Inv2 w Hr)). Qed.

(** X10. An instance whose collapsed height is not ['auto'] never leaves
    that height: in every reachable world the current and the previous
    state hold the collapsed height, and every event emitted so far and
    every pending completion timer carries it. *)
Theorem plain_height_never_moves w :
  reachable w →
  height (closure w) ≠ auto →
  s_height (state (closure w)) = collapsedHeight (closure w)
  ∧ s_height (prevState (closure w)) = collapsedHeight (closure w)
  ∧ (∀ e, e ∈ emitted (browser w) →
          payload e = collapsedHeight (closure w))
  ∧ (∀ t, t ∈ timers (browser w) →
          carried t.2 = collapsedHeight (closure w)).
Proof.
  intros Hr Hna. pose proof (reachable_Inv2 w Hr) as HJ.
  rewrite (inv2_heights w HJ).
  destruct (inv2_plain w HJ Hna) as [Hs Hp]. split_and!; [done|done| |].
  - intros e He. by apply (inv2_plain_emitted w HJ).
  - intros t Ht. by apply (inv2_plain_timers w HJ).
Qed.

(** X11. The state height is ['auto'] only before the first cycle: in a
    reachable world whose state height is ['auto'] the state is still the
    one [setup] created and nothing has been emitted or scheduled.  Once a
    cycle has started the rendered height is never ['auto'] again. *)
Theorem auto_height_only_before_first_cycle w :
  reachable w →
  s_height (state (closure w)) = auto →
  state (closure w) = pristine (closure w)
  ∧ emitted (browser w) = []
  ∧ timers (browser w) = []
  ∧ frames (browser w) = [].
Proof. intros Hr. apply (inv2_pristine w (reachable_Inv2 w Hr)). Qed.

(** X12. Whenever the content element is hidden ([display: none]) the
    state height is the number [0]; so the render function writes a height
    of ["0px"], and sets the content opacity to [0] when [animateOpacity]
    is on. *)
Theorem hidden_content_has_height_zero w props attrs :
  reachable w →
  displayOf w = Some "none" →
  s_height (state (closure w)) = JNum 0
  ∧ v_height (render props attrs (closure w)) = "0px"
  ∧ (p_animateOpacity props = true →
     v_contentOpacity (render props attrs (closure w)) = Some 0).
Proof.
  intros Hr Hd.
  pose proof (inv2_display w (reachable_Inv2 w Hr) Hd) as Hz.
  split; [done|]. unfold render. destruct (getTimings props (closure w)).
  simpl. rewrite Hz. split; [done|]. by intros ->.
Qed.

(** X13. Mounting emits and schedules nothing, and hides the content
    exactly when the collapsed height is the number [0]. *)
Theorem mount_hides_height_zero sem window props natural w0 :
  mount sem window props natural = Some w0 →
  emitted (browser w0) = []
  ∧ timers (browser w0) = []
  ∧ frames (browser w0) = []
  ∧ displayOf w0
    = Some (if collapsedHeight (closure w0) === JNum 0 then "none"
            else EmptyString).
Proof.
  unfold mount. destruct (setup sem window props) as [c|]; [|done].
  simpl. intros [= <-]. unfold onMounted, displayOf. simpl.
  rewrite hideContent_display. autorewrite with closure. simpl.
  split_and!; try done. by case_match.
Qed.

(** ** Hidden content under a collapsed height of ['auto'] *)

Lemma shown_kept c :
  s_height (prevState c) ≠ collapsedHeight c →
  contentElement (shown c) = contentElement c.
Proof.
  intros Hne. unfold shown, showContent. simpl. unfold strict_eq.
  by rewrite bool_decide_eq_false_2.
Qed.

Lemma hidden_step w e :
  reachable w →
  collapsedHeight (closure w) = auto →
  displayOf w = Some "none" →
  displayOf (step w e) = Some "none"
  ∧ ∃ rest,
      emitted (browser (step w e)) = (emitted (browser w) ++ rest)%list
      ∧ Forall (λ ev, payload ev = JNum 0) rest.
Proof.
  intros Hr Hc Hd. unfold displayOf in *.
  pose proof (reachable_Inv w Hr) as HI.
  pose proof (reachable_Inv2 w Hr) as HJ.
  pose proof (inv2_display w HJ Hd) as Hz.
  destruct (inv2_hidden w HJ Hc Hd) as [_ Hprev].
  assert (Ha : height (closure w) = auto)
    by (by rewrite <- (inv2_heights w HJ)).
  assert (Hnil :
    ∀ w', display <$> contentElement (closure w') = Some "none" →
          emitted (browser w') = emitted (browser w) →
          display <$> contentElement (closure w') = Some "none"
          ∧ ∃ rest, emitted (browser w') = (emitted (browser w) ++ rest)%list
                    ∧ Forall (λ ev, payload ev = JNum 0) rest).
  { intros w' ? ?. split; [done|]. exists []. by rewrite app_nil_r. }
  destruct e as [props|ms|id| |h|].
  - simpl.
    destruct (decide (prevIsExpanded (closure w) = p_isExpanded props))
      as [He|Hne]; [rewrite onUpdated_same by done; by apply Hnil|].
    rewrite (onUpdated_from_auto_eq w props HI Hne Ha). cbv zeta.
    apply Hnil; [|done]. simpl.
    rewrite measured_display, shown_kept; [done|congruence].
  - by apply (Hnil (step w (Elapsed ms))).
  - simpl. unfold fireTimer.
    destruct (List.find _ _) as [[[id' due] cb]|] eqn:Hfind;
      [|by apply Hnil].
    apply find_some in Hfind as [Hin [Hid _]%andb_prop].
    apply bool_decide_eq_true_1 in Hid. simpl in Hid. subst id'.
    pose proof (inv_timers_one w HI) as Hone.
    pose proof (inv_timers_ok w HI (id, due, cb)) as Hok.
    clear Hnil. destruct w as [c b]. simpl in *.
    assert (Hts : timers b = [(id, due, cb)]).
    { destruct (timers b) as [|t [|t' l]]; simpl in *; [done| |lia].
      by destruct Hin as [->|[]]. }
    rewrite Hts in *. specialize (Hok ltac:(left)). simpl in Hok.
    destruct cb as [ts|ts cls|ts cls nh]; [done| |by destruct Hok as (_&_&?)].
    destruct Hok as (_ & Hsh & _).
    unfold runCallback, onBrowser. simpl.
    rewrite hideContent_display. simpl. split.
    + destruct (contentElement c); [|done]. by case_match.
    + exists [animationEnd (ts_height ts)]. split; [done|].
      constructor; [|done]. simpl. congruence.
  - simpl. unfold fireFrames.
    pose proof (inv_frames_one w HI) as Hone.
    destruct (frames (browser w)) as [|[id cb] [|f' l]] eqn:Hfs;
      simpl in *; [| |lia].
    + by apply (Hnil (onBrowser (setFrames []) w)).
    + pose proof (inv_frames_ok _ HI (id, cb)) as Hok. simpl in Hok.
      rewrite Hfs in Hok. specialize (Hok ltac:(left)).
      destruct cb as [ts|ts cls|ts cls nh]; [|done|done]. simpl in *.
      unfold runCallback. simpl. split; [done|].
      exists [animationStart (ts_height ts)]. split; [done|].
      constructor; [|done]. simpl. congruence.
  - apply (Hnil (step w (ContentResized h))); [|done]. simpl.
    by destruct (contentElement (closure w)).
  - apply (Hnil (step w Unmounted)).
    + unfold onBeforeUnmount. by simpl.
    + simpl. unfold onBeforeUnmount. simpl.
      unfold clearTimeoutUnlessNull, clearTimeout, cancelAnimationFrames.
      by repeat case_match.
Qed.

(** X14. Under a collapsed height of ['auto'], content that has been
    hidden stays hidden: [showContent] shows it only while the previous
    state height is ['auto'], which it is no longer.  Whatever happens
    afterwards, and however the content grows, [display] stays ["none"],
    every later cycle measures [0], and every later event carries [0]. *)
Theorem hidden_auto_content_stays_hidden w events :
  reachable w →
  collapsedHeight (closure w) = auto →
  displayOf w = Some "none" →
  displayOf (run w events) = Some "none"
  ∧ ∃ rest,
      emitted (browser (run w events)) = (emitted (browser w) ++ rest)%list
      ∧ Forall (λ ev, payload ev = JNum 0) rest.
Proof.
  revert w. induction events as [|e events IH]; intros w Hr Hc Hd.
  - split; [done|]. exists []. by rewrite app_nil_r.
  - destruct (hidden_step w e Hr Hc Hd) as (Hd' & rest & He & Hrest).
    destruct (IH (step w e)) as (Hd'' & rest' & He' & Hrest').
    + apply (reachable_run w [e] Hr).
    + destruct (step_sameSetup w e) as (-> & _). done.
    + done.
    + simpl. split; [done|]. exists (rest ++ rest')%list.
      rewrite He', He, <- app_assoc. split; [done|].
      by apply Forall_app.
Qed.

(** ** Rendering under reduced motion *)

(** X16. When the reduced-motion preference was detected at [setup], the
    transition strings the render function writes carry [0ms] for the
    duration and for the delay, whatever the props say: the opacity
    transition of the content whenever [animateOpacity] is on, and the
    height transition (after any transition passed in [style]) whenever
    inline transitions are in use; the vendor-prefixed copies are the
    same. *)
Theorem render_reduced_motion props attrs c :
  prefersReducedMotion c = true →
  let v := render props attrs c in
  let height0 := "height 0ms " +:+ p_easing props +:+ " 0ms" in
  v_contentTransition v
  = (if p_animateOpacity props
     then Some ("opacity 0ms " +:+ p_easing props +:+ " 0ms") else None)
  ∧ v_contentWebkitTransition v = v_contentTransition v
  ∧ (s_shouldUseTransitions (state c) && p_applyInlineTransitions props
     = true →
     v_transition v
     = Some match a_styleTransition attrs with
            | Some passed => passed +:+ ", " +:+ height0
            | None => height0
            end
     ∧ v_WebkitTransition v = v_transition v).
Proof.
  intros Hp. unfold render, getTimings. rewrite Hp. simpl.
  split_and!; [done|done|]. intros ->. done.
Qed.

(** ** Instances of the further properties *)

Lemma setup_returns_witness :
  setup BlockScoped NoWindow (collapsed (JStr "50%")) = None
  ∧ ∃ c, setup LoweredToVar NoWindow (collapsed (JStr "50%")) = Some c
         ∧ s_overflow (state c) = Some "visible".
Proof.
  split.
  - apply (proj1 (setup_returns BlockScoped NoWindow (collapsed (JStr "50%")))).
    split; [reflexivity|right; reflexivity].
  - eexists. split; [vm_compute; reflexivity|].
    apply (proj2 (setup_returns LoweredToVar NoWindow
                    (collapsed (JStr "50%")))).
    vm_compute; reflexivity.
Defined.


Lemma emitted_heights_are_settled_witness :
  ∃ w0, mount BlockScoped NoWindow (collapsed auto) 120 = Some w0
    ∧ let w := run w0 (wholeCycle w0 (expanded auto)) in
      animationEnd (JNum 120) ∈ emitted (browser w)
      ∧ settled (payload (animationEnd (JNum 120))).
Proof.
  eexists. split; [vm_compute; reflexivity|]. intros w.
  assert (Hin : animationEnd (JNum 120) ∈ emitted (browser w)).
  { vm_compute. right. left. }
  split; [exact Hin|].
  apply (emitted_heights_are_settled w); [|exact Hin].
  eexists BlockScoped, NoWindow, (collapsed auto), 120, _,
    (wholeCycle _ (expanded auto)).
  split; [vm_compute; reflexivity|reflexivity].
Defined.

Lemma plain_height_never_moves_witness :
  ∃ w0, mount LoweredToVar NoWindow (collapsed (JNum 15)) 120 = Some w0
    ∧ let w := run w0 (wholeCycle w0 (expanded (JNum 15))) in
      height (closure w) ≠ auto
      ∧ s_height (state (closure w)) = collapsedHeight (closure w)
      ∧ collapsedHeight (closure w) = JNum 15
      ∧ List.length (emitted (browser w)) = 2%nat.
Proof.
  eexists. split; [vm_compute; reflexivity|]. intros w.
  assert (Hna : height (closure w) ≠ auto) by (vm_compute; discriminate).
  split; [exact Hna|].
  destruct (plain_height_never_moves w) as (Hs & _); [|exact Hna|].
  - eexists LoweredToVar, NoWindow, (collapsed (JNum 15)), 120, _,
      (wholeCycle _ (expanded (JNum 15))).
    split; [vm_compute; reflexivity|reflexivity].
  - split; [exact Hs|]. split; reflexivity.
Defined.

Lemma auto_height_only_before_first_cycle_witness :
  ∃ w0, mount BlockScoped NoWindow (collapsed auto) 120 = Some w0
    ∧ s_height (state (closure w0)) = auto
    ∧ state (closure w0) = pristine (closure w0)
    ∧ emitted (browser w0) = []
    ∧ timers (browser w0) = []
    ∧ frames (browser w0) = [].
Proof.
  eexists. split; [vm_compute; reflexivity|].
  split; [reflexivity|].
  apply auto_height_only_before_first_cycle; [|reflexivity].
  eexists BlockScoped, NoWindow, (collapsed auto), 120, _, [].
  split; [vm_compute; reflexivity|reflexivity].
Defined.

Lemma hidden_content_has_height_zero_witness :
  ∃ w0, mount LoweredToVar NoWindow (collapsed (JNum 0)) 120 = Some w0
    ∧ displayOf w0 = Some "none"
    ∧ s_height (state (closure w0)) = JNum 0
    ∧ v_height (render (collapsed (JNum 0)) noAttrs (closure w0)) = "0px".
Proof.
  eexists. split; [vm_compute; reflexivity|].
  split; [reflexivity|].
  match goal with |- context [closure ?w] => set (w0 := w) end.
  destruct (hidden_content_has_height_zero w0 (collapsed (JNum 0)) noAttrs)
    as (Hz & Hpx & _).
  - exists LoweredToVar, NoWindow, (collapsed (JNum 0)), 120, w0, [].
    split; [vm_compute; reflexivity|reflexivity].
  - reflexivity.
  - split; [exact Hz|exact Hpx].
Defined.

Lemma mount_hides_height_zero_witness :
  ∃ w0, mount LoweredToVar NoWindow (collapsed (JNum (-4))) 120 = Some w0
    ∧ emitted (browser w0) = []
    ∧ timers (browser w0) = []
    ∧ frames (browser w0) = []
    ∧ displayOf w0
      = Some (if collapsedHeight (closure w0) === JNum 0 then "none"
              else EmptyString).
Proof.
  eexists. split; [vm_compute; reflexivity|].
  apply (mount_hides_height_zero LoweredToVar NoWindow
           (collapsed (JNum (-4))) 120).
  vm_compute; reflexivity.
Defined.

Lemma hidden_auto_content_stays_hidden_witness :
  ∃ w0, mount BlockScoped NoWindow (collapsed auto) 0 = Some w0
    ∧ let w := run w0 (wholeCycle w0 (expanded auto)) in
      let later := [ContentResized 300; Rendered (expanded auto);
                    AnimationFrame; Elapsed 250; TimerDue 2] in
      collapsedHeight (closure w) = auto
      ∧ displayOf w = Some "none"
      ∧ displayOf (run w later) = Some "none"
      ∧ ∃ rest,
          emitted (browser (run w later)) = (emitted (browser w) ++ rest)%list
          ∧ Forall (λ ev, payload ev = JNum 0) rest.
Proof.
  eexists. split; [vm_compute; reflexivity|]. intros w later.
  split; [reflexivity|]. split; [reflexivity|].
  apply (hidden_auto_content_stays_hidden w later).
  - eexists BlockScoped, NoWindow, (collapsed auto), 0, _,
      (wholeCycle _ (expanded auto)).
    split; [vm_compute; reflexivity|reflexivity].
  - reflexivity.
  - reflexivity.
Defined.

Lemma render_reduced_motion_witness :
  ∃ w0, mount BlockScoped (MatchMedia true) (collapsed auto) 120 = Some w0
    ∧ let c := closure (run w0 [Rendered (expanded auto); AnimationFrame]) in
      prefersReducedMotion c = true
      ∧ s_shouldUseTransitions (state c)
        && p_applyInlineTransitions (expanded auto) = true
      ∧ v_transition (render (expanded auto) noAttrs c)
        = Some "height 0ms ease 0ms".
Proof.
  eexists. split; [vm_compute; reflexivity|]. intros c.
  split; [reflexivity|]. split; [reflexivity|].
  destruct (render_reduced_motion (expanded auto) noAttrs c)
    as (_ & _ & Ht); [reflexivity|].
  destruct Ht as [Ht _]; [reflexivity|]. exact Ht.
Defined.

(** * Completion, whole cycles and the literal ["0%"] *)

(** ** What a callback does to the browser *)

Lemma runCallback_browser cb w :
  browser (runCallback cb w) = emit (emits cb) (browser w).
Proof. by destruct cb. Qed.



(** ** Completion *)



(** ** Whole cycles *)

Lemma leavesCycleAlone_ext c c' e :
  prevIsExpanded c' = prevIsExpanded c →
  leavesCycleAlone c e → leavesCycleAlone c' e.
Proof. intros H. destruct e; simpl; congruence. Qed.

(** An event that leaves the cycle alone moves it along the four stands,
    emitting what the callback it runs emits. *)
Lemma cycle_step f t h base w e rest :
  emits f.2 = animationStart h →
  emits t.2 = animationEnd h →
  leavesCycleAlone (closure w) e →
  emitted (browser w) = (base ++ rest)%list →
  cycleStands f t h (browser w) rest →
  ∃ more,
    emitted (browser (step w e)) = (base ++ rest ++ more)%list
    ∧ cycleStands f t h (browser (step w e)) (rest ++ more)%list.
Proof.
  intros Hf Ht Halone Hem Hst.
  assert (Hstay : ∀ w', emitted (browser w') = emitted (browser w) →
                        frames (browser w') = frames (browser w) →
                        timers (browser w') = timers (browser w) →
    ∃ more,
      emitted (browser w') = (base ++ rest ++ more)%list
      ∧ cycleStands f t h (browser w') (rest ++ more)%list).
  { intros w' He Hfr Hti. exists []. rewrite app_nil_r, He.
    split; [done|]. unfold cycleStands. by rewrite Hfr, Hti. }
  destruct e as [props|ms|id| |k|]; simpl in Halone.
  - simpl. by rewrite onUpdated_same by done; apply Hstay.
  - by apply Hstay.
  - simpl. unfold fireTimer.
    destruct (List.find _ (timers (browser w))) as [[[tid due] cb]|] eqn:Hfind;
      [|by apply Hstay].
    assert (Hfired : timers (browser w) = [t] ∧ t = (tid, due, cb)
                     ∧ tid = id).
    { destruct Hst as [(_ & Hti & _)|[(_ & Hti & _)|
                       [(_ & Hti & _)|(_ & Hti & _)]]];
        rewrite Hti in Hfind; simpl in Hfind; try done.
      all: destruct (bool_decide (t.1.1 = id)) eqn:Hid; simpl in Hfind;
        [|done].
      all: apply bool_decide_eq_true in Hid.
      all: destruct (t.1.2 <=? now (browser w)); [|done].
      all: injection Hfind as ->; done. }
    destruct Hfired as (Hti & -> & ->). simpl in Ht.
    exists [animationEnd h].
    rewrite runCallback_browser, Ht. simpl. rewrite Hti.
    rewrite filter_cons_False by (simpl; by intros H).
    rewrite Hem, <- app_assoc. split; [done|].
    unfold cycleStands in *. simpl. rewrite Hti in Hst.
    destruct Hst as [(Hfr & _ & ->)|[(Hfr & _ & ->)|
                     [(_ & ? & _)|(_ & ? & _)]]]; try done;
      rewrite Hfr; by eauto 10.
  - simpl. unfold fireFrames.
    destruct (frames (browser w)) as [|f' [|f'' fs]] eqn:Hfr.
    + simpl. by apply (Hstay (onBrowser (setFrames []) w)).
    + assert (f' = f) as ->.
      { destruct Hst as [(? & _)|[(? & _)|[(? & _)|(? & _)]]]; congruence. }
      exists [animationStart h]. simpl.
      rewrite runCallback_browser, Hf. simpl.
      rewrite Hem, <- app_assoc. split; [done|].
      unfold cycleStands in *. simpl.
      destruct Hst as [(_ & Hti & ->)|[(? & _)|
                       [(_ & Hti & ->)|(? & _)]]]; try congruence;
        rewrite Hti; simpl; by eauto 10.
    + exfalso.
      destruct Hst as [(? & _)|[(? & _)|[(? & _)|(? & _)]]]; congruence.
  - by apply Hstay.
  - done.
Qed.

Lemma cycle_run f t h base events : ∀ w rest,
  emits f.2 = animationStart h →
  emits t.2 = animationEnd h →
  Forall (leavesCycleAlone (closure w)) events →
  emitted (browser w) = (base ++ rest)%list →
  cycleStands f t h (browser w) rest →
  ∃ more,
    emitted (browser (run w events)) = (base ++ rest ++ more)%list
    ∧ cycleStands f t h (browser (run w events)) (rest ++ more)%list.
Proof.
  induction events as [|e events IH]; intros w rest Hf Ht Hall Hem Hst.
  - exists []. by rewrite app_nil_r.
  - apply Forall_cons in Hall as [He Hall].
    destruct (cycle_step f t h base w e rest Hf Ht He Hem Hst)
      as (m1 & Hem1 & Hst1).
    destruct (IH (step w e) (rest ++ m1)%list Hf Ht) as (m2 & Hem2 & Hst2).
    + eapply Forall_impl; [exact Hall|]. intros e'.
      apply leavesCycleAlone_ext.
      by destruct (step_sameSetup w e) as (_ & _ & _ & _ & _ & ?).
    + done.
    + done.
    + exists (m1 ++ m2)%list. simpl.
      rewrite <- !app_assoc in Hem2, Hst2. done.
Qed.

(** What each of the four stands says of the events emitted so far. *)
Lemma cycleStands_emitted f t h b rest :
  cycleStands f t h b rest →
  NoDup rest
  ∧ (∀ e, e ∈ rest → payload e = h)
  ∧ (animationStart h ∈ rest ↔ frames b = [])
  ∧ (animationEnd h ∈ rest ↔ timers b = []).
Proof.
  intros [(Hfr & Hti & ->)|[(Hfr & Hti & ->)|
          [(Hfr & Hti & ->)|(Hfr & Hti & [->| ->])]]];
    rewrite Hfr, Hti; split_and!;
    try (by apply NoDup_nil);
    try (apply NoDup_singleton);
    try (apply NoDup_cons; split; [|apply NoDup_singleton]);
    try (intros e; rewrite ?elem_of_cons, ?elem_of_nil;
         intros; by intuition subst);
    rewrite ?elem_of_cons, ?elem_of_nil; try (by intuition); try done.
Qed.

(** C10. Take any update that starts a cycle, and any events after it
    that leave the cycle alone: time passing, timers and frames run in any
    order and however late, content resized in between, re-renders that do
    not pass the guard.  Everything emitted since the update carries one
    and the same [newHeight], the target of the cycle; no event is emitted
    twice; [animationStart] has been emitted exactly when no frame callback
    is pending any more and [animationEnd] exactly when no timer is.  So a
    cycle that has run to its end has emitted one [animationStart] and one
    [animationEnd] with the same [newHeight], whether it started from
    ['auto'] or not; when it did not, [animationStart] comes first. *)
Theorem start_and_end_carry_the_same_height w props events :
  reachable w →
  prevIsExpanded (closure w) ≠ p_isExpanded props →
  Forall (leavesCycleAlone (closure w)) events →
  let w' := run w (Rendered props :: events) in
  let h := target (closure w) in
  ∃ rest,
    emittedBy w' = (emittedBy w ++ rest)%list
    ∧ NoDup rest
    ∧ (∀ e, e ∈ rest → payload e = h)
    ∧ (animationStart h ∈ rest ↔ frames (browser w') = [])
    ∧ (animationEnd h ∈ rest ↔ timers (browser w') = [])
    ∧ (frames (browser w') = [] → timers (browser w') = [] →
       rest = [animationStart h; animationEnd h]
       ∨ rest = [animationEnd h; animationStart h])
    ∧ (height (closure w) ≠ auto →
       ∃ more, rest = animationStart h :: more).
Proof.
  intros Hreach Hstarts Hall w' h.
  pose proof (reachable_Inv w Hreach) as HI.
  assert (Hall1 : Forall (leavesCycleAlone (closure (onUpdated props w)))
                         events).
  { eapply Forall_impl; [exact Hall|]. intros e'.
    apply leavesCycleAlone_ext.
    by destruct (step_sameSetup w (Rendered props))
      as (_ & _ & _ & _ & _ & ?). }
  assert (Hfinal : ∀ f t rest,
    cycleStands f t h (browser w') rest →
    frames (browser w') = [] → timers (browser w') = [] →
    rest = [animationStart h; animationEnd h]
    ∨ rest = [animationEnd h; animationStart h]).
  { intros f t rest [(Hfr & Hti & ->)|[(Hfr & Hti & ->)|
          [(Hfr & Hti & ->)|(Hfr & Hti & Hor)]]] Hf Ht; congruence. }
  subst w'. unfold run in *. cbn [foldl step] in *.
  fold (run (onUpdated props w) events) in *.
  unfold emittedBy.
  destruct (decide (height (closure w) = auto)) as [Ha|Hna].
  - assert (Hh : h = JNum (contentHeight (closure w))).
    { subst h. unfold target. rewrite Ha. done. }
    revert Hall1 Hfinal.
    rewrite (onUpdated_from_auto_eq w props HI Hstarts Ha). cbv zeta.
    intros Hall1 Hfinal.
    match goal with
    | |- context [MkBrowser _ _ [?t] _ [?f] _] =>
        destruct (cycle_run f t h (emitted (browser w)) events _ []
                    ltac:(by rewrite Hh) ltac:(by rewrite Hh) Hall1
                    ltac:(by rewrite app_nil_r)
                    ltac:(by left))
          as (more & Hem & Hst)
    end.
    simpl in Hem, Hst. exists more.
    destruct (cycleStands_emitted _ _ _ _ _ Hst) as (N1 & N2 & N3 & N4).
    split_and!; try done; by eauto.
  - assert (Hh : h = height (closure w)).
    { subst h. unfold target, strict_eq.
      by rewrite bool_decide_eq_false_2. }
    revert Hall1 Hfinal.
    rewrite (onUpdated_plain_eq w props HI Hstarts Hna). cbv zeta.
    rewrite (plain_target_reachable w Hreach Hna), <- Hh.
    intros Hall1 Hfinal.
    match goal with
    | |- context [MkBrowser _ _ [?t] _ [] _] =>
        destruct (cycle_run
                    (0%nat, StartFromAuto (MkTimeoutState None h None None))
                    t h (emitted (browser w)) events _ [animationStart h]
                    ltac:(done) ltac:(done) Hall1
                    ltac:(done)
                    ltac:(by right; left))
          as (more & Hem & Hst)
    end.
    exists (animationStart h :: more).
    destruct (cycleStands_emitted _ _ _ _ _ Hst) as (N1 & N2 & N3 & N4).
    split_and!; try done; by eauto.
Qed.

(** ** The literal ["0%"] *)




(** ** Instances of the three *)


Lemma mounts_half :
  is_Some (mount LoweredToVar NoWindow (collapsed (JStr "50%")) 120).
Proof. vm_compute. by eexists. Qed.



(** C10 at an instance whose parent switches [isExpanded] back as soon as
    [animationStart] arrives: the re-render that follows the update does
    not pass the guard, the content grows, the timer runs late, and the
    re-render after its state write does not pass the guard either. *)
Lemma start_and_end_carry_the_same_height_witness :
  ∃ w0, mount LoweredToVar NoWindow (collapsed (JStr "50%")) 120 = Some w0
    ∧ prevIsExpanded (closure w0) ≠ p_isExpanded (expanded (JStr "50%"))
    ∧ let events := [Rendered (collapsed (JStr "50%")); ContentResized 80;
                     Elapsed 300; AnimationFrame; TimerDue 1;
                     Rendered (collapsed (JStr "50%"))] in
      let w' := run w0 (Rendered (expanded (JStr "50%")) :: events) in
      let h := target (closure w0) in
      emittedBy w'
      = [animationStart (JStr "50%"); animationEnd (JStr "50%")]
      ∧ ∃ rest,
          emittedBy w' = (emittedBy w0 ++ rest)%list
          ∧ NoDup rest
          ∧ (∀ e, e ∈ rest → payload e = h)
          ∧ (animationStart h ∈ rest ↔ frames (browser w') = [])
          ∧ (animationEnd h ∈ rest ↔ timers (browser w') = [])
          ∧ (frames (browser w') = [] → timers (browser w') = [] →
             rest = [animationStart h; animationEnd h]
             ∨ rest = [animationEnd h; animationStart h])
          ∧ (height (closure w0) ≠ auto →
             ∃ more, rest = animationStart h :: more).
Proof.
  exists (is_Some_proj mounts_half).
  split; [vm_compute; reflexivity|].
  split; [vm_compute; discriminate|].
  split; [vm_compute; reflexivity|].
  apply (start_and_end_carry_the_same_height _ (expanded (JStr "50%"))).
  - exists LoweredToVar, NoWindow, (collapsed (JStr "50%")), 120,
      (is_Some_proj mounts_half), [].
    split; [vm_compute; reflexivity|reflexivity].
  - vm_compute; discriminate.
  - repeat (apply Forall_cons; split; [vm_compute; done|]).
    apply Forall_nil. done.
Defined.

